(** * OLX search-result scraper ([src/app.py]): model and verified properties

    The development embeds the class [StealthyScraper] of [src/app.py]:

    - Python [str] values are byte strings ([string]), read as the UTF-8
      encoding of the text; [str.strip] removes every character that
      [str.isspace] accepts, in its UTF-8 form; [str.lower] is modelled
      on the ASCII letters, which decides the two searches of line 59,
      whose needles ["captcha"] and ["detected unusual traffic"] are
      ASCII;
    - a BeautifulSoup tree is the inductive type [node], with the strings
      that [.text] reads told apart from those it skips; the HTML parser
      itself is a component of the environment;
    - the dictionary returned by [parse_listing] is a [gmap string string];
    - sleeping, drawing random numbers and issuing HTTP requests are
      effects on an explicit [state], in a small state monad; the network
      and the entropy source are an [env];
    - the two [while] loops are defined by well-founded recursion on the
      distance between the loop counter and its bound. *)

From Stdlib Require Import Ascii String QArith Lqa DecimalString Sorted.
From Stdlib Require DecimalPos DecimalZ.
From stdpp Require Import gmap strings list fin_maps.
From Equations Require Import Equations.

Set Warnings "-register-all".

Local Open Scope Z_scope.
Local Open Scope string_scope.

(** ** Strings *)

Module Str.

(** [c.lower()] for one character, ASCII range. *)
Definition lower_ascii (c : ascii) : ascii :=
  let n := nat_of_ascii c in
  if (65 <=? n)%nat && (n <=? 90)%nat then ascii_of_nat (n + 32) else c.

(** [s.lower()]. *)
Fixpoint lower (s : string) : string :=
  match s with
  | EmptyString => EmptyString
  | String c rest => String (lower_ascii c) (lower rest)
  end.

(** [s.startswith(p)]. *)
Fixpoint startswith (p s : string) : bool :=
  match p, s with
  | EmptyString, _ => true
  | String _ _, EmptyString => false
  | String a p', String b s' => bool_decide (a = b) && startswith p' s'
  end.

(** [needle in hay]. *)
Fixpoint contains (needle hay : string) : bool :=
  startswith needle hay ||
  match hay with
  | EmptyString => false
  | String _ rest => contains needle rest
  end.

(** [c.isspace()] for a character of one byte: tab, LF, VT, FF, CR, FS,
    GS, RS, US and the space character. *)
Definition isspace (c : ascii) : bool :=
  let n := nat_of_ascii c in
  ((9 <=? n)%nat && (n <=? 13)%nat) ||
  ((28 <=? n)%nat && (n <=? 32)%nat).

(** [c.isspace()] for a character of two bytes [a b]: U+0085 (C2 85) and
    U+00A0 (C2 A0). *)
Definition isspace2 (a b : ascii) : bool :=
  (nat_of_ascii a =? 194)%nat &&
  ((nat_of_ascii b =? 133)%nat || (nat_of_ascii b =? 160)%nat).

(** [c.isspace()] for a character of three bytes [a b c]: U+1680
    (E1 9A 80), U+2000 to U+200A (E2 80 80 to E2 80 8A), U+2028, U+2029
    and U+202F (E2 80 A8, A9, AF), U+205F (E2 81 9F) and U+3000
    (E3 80 80). *)
Definition isspace3 (a b c : ascii) : bool :=
  let x := nat_of_ascii a in
  let y := nat_of_ascii b in
  let z := nat_of_ascii c in
  ((x =? 225)%nat && (y =? 154)%nat && (z =? 128)%nat) ||
  ((x =? 226)%nat && (y =? 128)%nat &&
   (((128 <=? z)%nat && (z <=? 138)%nat) ||
    (z =? 168)%nat || (z =? 169)%nat || (z =? 175)%nat)) ||
  ((x =? 226)%nat && (y =? 129)%nat && (z =? 159)%nat) ||
  ((x =? 227)%nat && (y =? 128)%nat && (z =? 128)%nat).

(** [s.lstrip()]: the space characters in front of [s] are removed,
    whether they take one, two or three bytes. *)
Fixpoint lstrip (s : string) : string :=
  match s with
  | EmptyString => EmptyString
  | String a s1 =>
      if isspace a then lstrip s1
      else
        match s1 with
        | EmptyString => s
        | String b s2 =>
            if isspace2 a b then lstrip s2
            else
              match s2 with
              | EmptyString => s
              | String c s3 => if isspace3 a b c then lstrip s3 else s
              end
        end
  end.

(** [s.rstrip()]: a byte is kept unless what starts at it is space
    characters up to the end. *)
Fixpoint rstrip (s : string) : string :=
  match s with
  | EmptyString => EmptyString
  | String a s1 =>
      match lstrip s with
      | EmptyString => EmptyString
      | _ => String a (rstrip s1)
      end
  end.

(** [s.strip()]. *)
Definition strip (s : string) : string := rstrip (lstrip s).

(** [str(n)] for an integer [n]. *)
Definition of_Z (n : Z) : string := NilZero.string_of_int (Z.to_int n).

End Str.

(** ** BeautifulSoup trees *)

(** A page element is a string or a tag. A string is a [NavigableString]
    proper (or a [CData]), which [.text] reads, or an instance of one of
    the subclasses that [.text] skips, all under [Comment]: a comment, a
    declaration, a doctype, a processing instruction, the content of
    [script], [style] or [template]. As [html.parser] builds a tag, its
    [class] attribute is a list of tokens (absent when the tag has no
    [class] attribute at all) and every other attribute is one string. *)
Inductive node : Type :=
| NavigableString (s : string)
| Comment (s : string)
| Tag (name : string) (class_ : option (list string))
      (attrs : gmap string string) (contents : list node).

(** The CSS selectors that occur in the source. *)
Inductive selector : Type :=
| TagClass (tag cls : string)          (* 'span._2Ks63' *)
| TagAttr (tag attr value : string)    (* 'span[data-aut-id="itemPrice"]' *)
| TagOnly (tag : string).              (* 'h2' *)

Module Soup.

(** All the nodes below [n], in document order; [n] itself is not one
    of them. *)
Fixpoint descendants (n : node) : list node :=
  match n with
  | NavigableString _ | Comment _ => []
  | Tag _ _ _ contents => flat_map (fun c => c :: descendants c) contents
  end.

(** [n.text] for a tag [n]: the strings below [n] that are no comments,
    joined. *)
Fixpoint text (n : node) : string :=
  match n with
  | NavigableString s => s
  | Comment _ => ""
  | Tag _ _ _ contents => fold_right (fun c acc => text c +:+ acc) "" contents
  end.

Definition tag_in (names : list string) (n : node) : bool :=
  match n with
  | Tag name _ _ _ => bool_decide (name ∈ names)
  | NavigableString _ | Comment _ => false
  end.

(** [class_=True]. *)
Definition has_class (n : node) : bool :=
  match n with
  | Tag _ (Some _) _ _ => true
  | _ => false
  end.

(** [href=True], and [attr in n.attrs] for an attribute other than
    [class]. *)
Definition has_attr (attr : string) (n : node) : bool :=
  match n with
  | Tag _ _ attrs _ => bool_decide (is_Some (attrs !! attr))
  | NavigableString _ | Comment _ => false
  end.

Definition matches (sel : selector) (n : node) : bool :=
  match n with
  | NavigableString _ | Comment _ => false
  | Tag name cls attrs _ =>
      match sel with
      | TagClass tag c =>
          bool_decide (name = tag) &&
          match cls with
          | Some tokens => bool_decide (c ∈ tokens)
          | None => false
          end
      | TagAttr tag attr value =>
          bool_decide (name = tag) && bool_decide (attrs !! attr = Some value)
      | TagOnly tag => bool_decide (name = tag)
      end
  end.

(** [n.select(sel)] and [n.select_one(sel)]. *)
Definition select (sel : selector) (n : node) : list node :=
  List.filter (matches sel) (descendants n).

Definition select_one (sel : selector) (n : node) : option node :=
  head (select sel n).

(** [n.find_all(names, ...)] and [n.find(names, ...)] with a further
    test [p] on the tag. *)
Definition find_all (names : list string) (p : node -> bool) (n : node)
  : list node :=
  List.filter (fun d => tag_in names d && p d) (descendants n).

Definition find (names : list string) (p : node -> bool) (n : node)
  : option node :=
  head (find_all names p n).

(** [n.find(text=p)]: the first string below [n] that satisfies [p]; the
    search goes through every string, comments and the like included. *)
Definition find_text (p : string -> bool) (n : node) : option string :=
  head (omap (fun d => match d with
                       | NavigableString s | Comment s =>
                           if p s then Some s else None
                       | Tag _ _ _ _ => None
                       end) (descendants n)).

End Soup.

(** ** Extraction of one listing ([parse_listing], lines 88-161) *)

(** The placeholder of a field that could not be extracted. *)
Definition sentinel : string := "N/A".

(** The site origin put in front of a relative link (line 140). *)
Definition origin : string := "https://www.olx.in".

Definition price_selectors : list selector :=
  [ TagClass "span" "_2Ks63"; TagClass "span" "olx-price-new";
    TagAttr "span" "data-aut-id" "itemPrice";
    TagClass "span" "price"; TagClass "span" "text-price" ].

Definition title_selectors : list selector :=
  [ TagClass "span" "_2tW1I"; TagClass "span" "olx-text-color";
    TagAttr "span" "data-aut-id" "itemTitle";
    TagOnly "h2"; TagClass "div" "title" ].

Definition loc_selectors : list selector :=
  [ TagClass "span" "tjgMj"; TagClass "span" "olx-location";
    TagAttr "span" "data-aut-id" "item-location";
    TagClass "span" "location" ].

Definition date_selectors : list selector :=
  [ TagClass "span" "zLvFQ"; TagClass "span" "olx-date";
    TagAttr "span" "data-aut-id" "item-date";
    TagClass "span" "date" ].

(** The loop of lines 106-111 (and of 113-118, 120-125, 127-132): the
    field starts as the sentinel, the selectors are tried in order, and
    the first one that matches a node supplies the stripped text of that
    node and leaves the loop. *)
Fixpoint first_text (listing : node) (selectors : list selector) : string :=
  match selectors with
  | [] => sentinel
  | sel :: rest =>
      match Soup.select_one sel listing with
      | Some elem => Str.strip (Soup.text elem)
      | None => first_text listing rest
      end
  end.

(** Lines 135-140. *)
Definition extract_link (listing : node) : string :=
  match Soup.find ["a"] (fun _ => true) listing with
  | Some (Tag _ _ attrs _) =>
      match attrs !! "href" with
      | Some href =>
          if Str.startswith "http" href then href else origin +:+ href
      | None => sentinel
      end
  | _ => sentinel
  end.

(** The loop of lines 146-149 over the attribute names. *)
Fixpoint first_attr (attrs : gmap string string) (names : list string)
  : string :=
  match names with
  | [] => sentinel
  | attr :: rest =>
      match attrs !! attr with
      | Some value => value
      | None => first_attr attrs rest
      end
  end.

(** Lines 143-149. *)
Definition extract_image (listing : node) : string :=
  match Soup.find ["img"] (fun _ => true) listing with
  | Some (Tag _ _ attrs _) => first_attr attrs ["src"; "data-src"; "srcset"]
  | _ => sentinel
  end.

(** [parse_listing]. A string has no [select_one]: the call of line 108
    raises, the handler of line 159 catches it and the result is [None].
    On a tag no statement of the body raises. *)
Definition parse_listing (listing : node) : option (gmap string string) :=
  match listing with
  | NavigableString _ | Comment _ => None
  | Tag _ _ _ _ =>
      let price := first_text listing price_selectors in
      let title := first_text listing title_selectors in
      let location := first_text listing loc_selectors in
      let date_posted := first_text listing date_selectors in
      let link := extract_link listing in
      let image_url := extract_image listing in
      Some {[ "title" := title; "price" := price; "location" := location;
              "date_posted" := date_posted; "link" := link;
              "image_url" := image_url ]}
  end.

(** The six keys of a listing record. *)
Definition record_keys : gset string :=
  {[ "title"; "price"; "location"; "date_posted"; "link"; "image_url" ]}.

(** The table that gives each text field its cascade. *)
Definition cascade_of (field : string) : option (list selector) :=
  if bool_decide (field = "price") then Some price_selectors
  else if bool_decide (field = "title") then Some title_selectors
  else if bool_decide (field = "location") then Some loc_selectors
  else if bool_decide (field = "date_posted") then Some date_selectors
  else None.

(** ** Location of the listings of a page ([find_listings], lines 163-207) *)

Definition listing_selectors : list selector :=
  [ TagClass "li" "EIR5N"; TagAttr "li" "data-aut-id" "itemBox";
    TagAttr "div" "data-aut-id" "itemCard"; TagClass "div" "IKo3_";
    TagClass "li" "listing" ].

(** The rupee sign U+20B9, as its three UTF-8 bytes. *)
Definition rupee : string :=
  String "226" (String "130" (String "185" EmptyString)).

(** Lines 195-199: the test of the general approach on one candidate. *)
Definition has_heading (item : node) : bool :=
  bool_decide (is_Some
    (Soup.find ["h2"; "h3"; "strong"; "span"] Soup.has_class item)).

Definition has_price (item : node) : bool :=
  match Soup.find_text
          (fun t => if bool_decide (t = "") then false
                    else Str.contains rupee t) item with
  | Some t => negb (bool_decide (t = ""))
  | None => false
  end.

Definition has_link (item : node) : bool :=
  bool_decide (is_Some (Soup.find ["a"] (Soup.has_attr "href") item)).

Definition looks_like_listing (item : node) : bool :=
  has_heading item && (has_price item || has_link item).

(** The loop of lines 179-183: the first selector with a non-empty match
    set returns that set. [None] stands for falling out of the loop. *)
Fixpoint first_selection (soup : node) (selectors : list selector)
  : option (list node) :=
  match selectors with
  | [] => None
  | sel :: rest =>
      match Soup.select sel soup with
      | [] => first_selection soup rest
      | listings => Some listings
      end
  end.

Section Locator.

(** [BeautifulSoup(html_content, 'html.parser')]. *)
Variable BeautifulSoup : string -> node.

Definition find_listings (html_content : option string) : list node :=
  match html_content with
  | None => []
  | Some html =>
      if bool_decide (html = "") then []
      else
        let soup := BeautifulSoup html in
        match first_selection soup listing_selectors with
        | Some listings => listings
        | None =>
            let potential_listings :=
              Soup.find_all ["div"; "li"] Soup.has_class soup in
            let filtered_listings :=
              List.filter looks_like_listing potential_listings in
            match filtered_listings with
            | [] => []
            | _ => filtered_listings
            end
        end
  end.

End Locator.

(** ** Effects: time, entropy, network, files *)

(** What [session.get] does on one call: a response with its status code
    and body, or a [requests.exceptions.RequestException]. *)
Inductive outcome : Type :=
| Response (status_code : Z) (text : string)
| RequestException.

(** The four places where the source calls [time.sleep]: line 49 (before
    a request), lines 62 and 69 (after a blocked or non-200 response),
    line 81 (after a network error) and line 252 (between two pages). *)
Inductive sleep_site : Type := PreRequest | Cooldown | Backoff | Pacing.

(** The observable actions of a run, in the order they happen. *)
Inductive event : Type :=
| Sleep (site : sleep_site) (seconds : Q)
| Get (url : string)
| WriteHtml (page : Z) (content : string).

(** The world outside the scraper: [random n] is the number of [0, 1]
    that [random.random()] gives to the [n]-th call of [random.uniform],
    [session_get n url] is the outcome of the [n]-th request when it asks
    for [url], and [BeautifulSoup] is the HTML parser. Durations are
    rational numbers of seconds. *)
Record env : Type := {
  random : nat -> Q;
  session_get : nat -> string -> outcome;
  BeautifulSoup : string -> node
}.

Record state : Type := {
  draws : nat;            (* random numbers drawn so far *)
  requests : nat;         (* requests issued so far *)
  events : list event     (* what happened so far, oldest first *)
}.

Definition M (A : Type) : Type := state -> A * state.

#[export] Instance M_ret : MRet M := fun A (a : A) s => (a, s).

#[export] Instance M_bind : MBind M :=
  fun A B (k : A -> M B) (m : M A) s => let '(a, s') := m s in k a s'.

Definition emit (ev : event) : M unit :=
  fun s => (tt, {| draws := draws s; requests := requests s;
                   events := events s ++ [ev] |}).

(** [time.sleep(seconds)] at the given place. *)
Definition sleep (site : sleep_site) (seconds : Q) : M unit :=
  emit (Sleep site seconds).

Section Scraper.

Variable e : env.

(** [random.uniform(a, b)], that is [a + (b - a) * random()], when it
    consumes the [n]-th random number. *)
Definition uniform_at (a b : Q) (n : nat) : Q :=
  (a + (b - a) * random e n)%Q.

Definition uniform (a b : Q) : M Q :=
  fun s => (uniform_at a b (draws s),
            {| draws := S (draws s); requests := requests s;
               events := events s |}).

(** [self.session.get(url, ...)]. *)
Definition get (url : string) : M outcome :=
  fun s => (session_get e (requests s) url,
            {| draws := draws s; requests := S (requests s);
               events := events s ++ [Get url] |}).

(** The [with open(...)] of lines 229-230. *)
Definition write_html (page : Z) (content : string) : M unit :=
  emit (WriteHtml page content).

(** ** [fetch_page] (lines 41-86) *)

(** [self.retry_delay] (line 25). *)
Definition retry_delay : Z := 30.

(** The test of line 59. *)
Definition blocked (text : string) : bool :=
  Str.contains "captcha" (Str.lower text) ||
  Str.contains "detected unusual traffic" (Str.lower text).

(** The [while] loop of line 44, entered with the current value of
    [retries]. *)
Equations? fetch_loop (url : string) (max_retries retries : Z)
  : M (option string) by wf (Z.to_nat (max_retries - retries)) lt :=
  fetch_loop url max_retries retries
    with decide (retries < max_retries) := {
    | right _ => mret None
    | left _ =>
        wait_time ← uniform 2 5;
        sleep PreRequest wait_time;;
        response ← get url;
        match response with
        | Response status_code text =>
            if blocked text then
              sleep Cooldown (inject_Z retry_delay);;
              fetch_loop url max_retries (retries + 1)
            else if negb (status_code =? 200)%Z then
              sleep Cooldown (inject_Z retry_delay);;
              fetch_loop url max_retries (retries + 1)
            else mret (Some text)
        | RequestException =>
            if bool_decide (retries + 1 < max_retries) then
              sleep Backoff (inject_Z (retry_delay * (retries + 1)));;
              fetch_loop url max_retries (retries + 1)
            else mret None
        end }.
Proof. all: lia. Qed.

Definition fetch_page (url : string) (max_retries : Z) : M (option string) :=
  fetch_loop url max_retries 0.

(** ** [scrape_search_results] (lines 209-254) *)

(** [self.base_url] (line 22). *)
Definition base_url : string := "https://www.olx.in/items/q-car-cover".

(** Lines 215-218. *)
Definition page_url (current_page : Z) : string :=
  if bool_decide (current_page = 1) then base_url
  else base_url +:+ "?page=" +:+ Str.of_Z current_page.

(** Lines 237-241: a result is appended when it is truthy, that is
    when it is a dictionary with at least one key. *)
Definition parse_all (listings : list node) : list (gmap string string) :=
  omap (fun listing =>
          match parse_listing listing with
          | Some result => if bool_decide (result = ∅) then None
                           else Some result
          | None => None
          end) listings.

(** Lines 249-252, run with the page counter already incremented. *)
Definition pace (max_pages current_page : Z) : M unit :=
  if bool_decide (current_page <= max_pages) then
    delay ← uniform 10 20;
    sleep Pacing delay
  else mret tt.

(** The [while] loop of line 214, entered with the current values of
    [current_page] and [all_results]. The test [not html_content] of
    line 223 holds of [None] and of the empty string. *)
Equations? scrape_loop (max_pages current_page : Z)
    (all_results : list (gmap string string))
  : M (list (gmap string string))
  by wf (Z.to_nat (max_pages + 1 - current_page)) lt :=
  scrape_loop max_pages current_page all_results
    with decide (current_page <= max_pages) := {
    | right _ => mret all_results
    | left _ =>
        html_content ← fetch_page (page_url current_page) 3;
        match html_content with
        | None => scrape_loop max_pages (current_page + 1) all_results
        | Some html =>
            if bool_decide (html = "") then
              scrape_loop max_pages (current_page + 1) all_results
            else
              write_html current_page html;;
              let listings := find_listings (BeautifulSoup e) (Some html) in
              let page_results := parse_all listings in
              pace max_pages (current_page + 1);;
              scrape_loop max_pages (current_page + 1)
                          (all_results ++ page_results)
        end }.
Proof. all: lia. Qed.

Definition scrape_search_results (max_pages : Z)
  : M (list (gmap string string)) :=
  scrape_loop max_pages 1 [].

End Scraper.

(** The state in which a run starts. *)
Definition initial : state := {| draws := 0; requests := 0; events := [] |}.

(** ** Persistence and entry point (lines 256-301) *)

(** The choices of [--format] (line 276). *)
Inductive format : Type := Json | Csv | Both.

(** A file written at the end of a run. The JSON file holds the list of
    records. The CSV file holds a header, the field names, and one row
    per record written; a row gives a cell to every field name. The
    order of the columns is not part of the model. *)
Inductive artifact : Type :=
| JsonFile (filename : string) (data : list (gmap string string))
| CsvFile (filename : string) (fieldnames : gset string)
          (rows : list (gmap string string)).

(** [save_to_json] (lines 256-260). *)
Definition save_to_json (data : list (gmap string string)) (filename : string)
  : list artifact :=
  [JsonFile filename data].

(** [csv.DictWriter._dict_to_list] with the defaults the source leaves in
    place: a key outside the field names raises [ValueError] ([None]); a
    field name the row lacks gets the empty string. *)
Definition dict_to_list (fieldnames : gset string)
    (rowdict : gmap string string) : option (gmap string string) :=
  if bool_decide (dom rowdict ⊆ fieldnames)
  then Some (rowdict ∪ gset_to_gmap "" fieldnames)
  else None.

(** [writer.writerows(data)]: the rows written, and whether a row made
    the writer raise; the rows before that one are in the file. *)
Fixpoint writerows (fieldnames : gset string)
    (rowdicts : list (gmap string string))
  : list (gmap string string) * bool :=
  match rowdicts with
  | [] => ([], false)
  | rowdict :: rest =>
      match dict_to_list fieldnames rowdict with
      | None => ([], true)
      | Some row =>
          let '(rows, raised) := writerows fieldnames rest in
          (row :: rows, raised)
      end
  end.

(** [save_to_csv] (lines 262-272): nothing is written for no data;
    otherwise the field names are the keys of the first record. The
    second component tells whether the call raised. *)
Definition save_to_csv (data : list (gmap string string)) (filename : string)
  : list artifact * bool :=
  match data with
  | [] => ([], false)
  | first :: _ =>
      let '(rows, raised) := writerows (dom first) data in
      ([CsvFile filename (dom first) rows], raised)
  end.

Definition wants_json (fmt : format) : bool :=
  match fmt with Json | Both => true | Csv => false end.

Definition wants_csv (fmt : format) : bool :=
  match fmt with Csv | Both => true | Json => false end.

(** [main] (lines 274-301) for the arguments [--format fmt --pages pages];
    [timestamp] is what [datetime.now().strftime(...)] gives at line 290.
    The result is the files written, in order, and whether the call
    ended in an exception. *)
Definition main (e : env) (fmt : format) (pages : Z) (timestamp : string)
  : M (list artifact * bool) :=
  results ← scrape_search_results e pages;
  let json :=
    if wants_json fmt
    then save_to_json results ("olx_car_covers_" +:+ timestamp +:+ ".json")
    else [] in
  let '(csv, raised) :=
    if wants_csv fmt
    then save_to_csv results ("olx_car_covers_" +:+ timestamp +:+ ".csv")
    else ([], false) in
  mret ((json ++ csv)%list, raised).

(** * Specifications *)

(** ** Events *)

(** The requests among some events. *)
Fixpoint requested (ev : list event) : list string :=
  match ev with
  | [] => []
  | Get url :: rest => url :: requested rest
  | _ :: rest => requested rest
  end.

Definition same_site (a b : sleep_site) : bool :=
  match a, b with
  | PreRequest, PreRequest | Cooldown, Cooldown
  | Backoff, Backoff | Pacing, Pacing => true
  | _, _ => false
  end.

(** The durations of the sleeps of one kind among some events. *)
Fixpoint slept (site : sleep_site) (ev : list event) : list Q :=
  match ev with
  | [] => []
  | Sleep site' d :: rest =>
      if same_site site site' then d :: slept site rest else slept site rest
  | _ :: rest => slept site rest
  end.

(** The state reached from [s] by the actions [ev] of some attempts:
    each request has consumed one random number. *)
Definition advance (s : state) (ev : list event) : state :=
  {| draws := draws s + length (requested ev);
     requests := requests s + length (requested ev);
     events := events s ++ ev |}.

(** The state after the wait of line 49 and the request of line 56. *)
Definition requested_once (e : env) (url : string) (s : state) : state :=
  {| draws := S (draws s); requests := S (requests s);
     events := events s ++
               [Sleep PreRequest (uniform_at e 2 5 (draws s)); Get url] |}.

Definition slept_once (site : sleep_site) (d : Q) (s : state) : state :=
  {| draws := draws s; requests := requests s;
     events := events s ++ [Sleep site d] |}.

(** ** The retry loop as a relation

    [attempts e url max_retries retries d q ev res]: entered with the
    counter at [retries], with [d] random numbers drawn and [q] requests
    issued so far, the loop of [fetch_page] performs the actions [ev] and
    returns [res]. One constructor per path through the loop body. *)

Inductive attempts (e : env) (url : string) (max_retries : Z)
  : Z -> nat -> nat -> list event -> option string -> Prop :=
| attempts_exhausted retries d q :
    ~ retries < max_retries ->
    attempts e url max_retries retries d q [] None
| attempts_blocked retries d q status_code text ev res :
    retries < max_retries ->
    session_get e q url = Response status_code text ->
    blocked text = true ->
    attempts e url max_retries (retries + 1) (S d) (S q) ev res ->
    attempts e url max_retries retries d q
      (Sleep PreRequest (uniform_at e 2 5 d) :: Get url ::
       Sleep Cooldown (inject_Z retry_delay) :: ev) res
| attempts_status retries d q status_code text ev res :
    retries < max_retries ->
    session_get e q url = Response status_code text ->
    blocked text = false ->
    status_code <> 200 ->
    attempts e url max_retries (retries + 1) (S d) (S q) ev res ->
    attempts e url max_retries retries d q
      (Sleep PreRequest (uniform_at e 2 5 d) :: Get url ::
       Sleep Cooldown (inject_Z retry_delay) :: ev) res
| attempts_success retries d q text :
    retries < max_retries ->
    session_get e q url = Response 200 text ->
    blocked text = false ->
    attempts e url max_retries retries d q
      [Sleep PreRequest (uniform_at e 2 5 d); Get url] (Some text)
| attempts_error_retry retries d q ev res :
    retries < max_retries ->
    session_get e q url = RequestException ->
    retries + 1 < max_retries ->
    attempts e url max_retries (retries + 1) (S d) (S q) ev res ->
    attempts e url max_retries retries d q
      (Sleep PreRequest (uniform_at e 2 5 d) :: Get url ::
       Sleep Backoff (inject_Z (retry_delay * (retries + 1))) :: ev) res
| attempts_error_give_up retries d q :
    retries < max_retries ->
    session_get e q url = RequestException ->
    ~ retries + 1 < max_retries ->
    attempts e url max_retries retries d q
      [Sleep PreRequest (uniform_at e 2 5 d); Get url] None.

(** [n] attempts in a row, each followed by the fixed cooldown of lines
    62 and 69; the first one consumes the [d]-th random number. *)
Fixpoint cooled_attempts (e : env) (url : string) (d n : nat) : list event :=
  match n with
  | O => []
  | S n' =>
      Sleep PreRequest (uniform_at e 2 5 d) :: Get url ::
      Sleep Cooldown (inject_Z retry_delay) :: cooled_attempts e url (S d) n'
  end.

(** From the [q]-th request on, every request for [url] is answered. *)
Definition answers (e : env) (url : string) (q : nat)
    (P : Z -> string -> Prop) : Prop :=
  forall n, (q <= n)%nat ->
    exists status_code text,
      session_get e n url = Response status_code text /\ P status_code text.

(** ... with a status other than 200. *)
Definition persistently_not_ok (e : env) (url : string) (q : nat) : Prop :=
  answers e url q (fun status_code _ => status_code <> 200).

(** ... with a body that contains [phrase], whatever the case of its
    letters. *)
Definition persistently_containing (phrase : string)
    (e : env) (url : string) (q : nat) : Prop :=
  answers e url q
    (fun _ text => Str.contains phrase (Str.lower text) = true).

(** [backoff_linear k ev]: in the events [ev], which start when [k]
    attempts have been made, every sleep of line 81 lasts [retry_delay]
    times the number of attempts made before it. *)
Fixpoint backoff_linear (k : Z) (ev : list event) : Prop :=
  match ev with
  | [] => True
  | Get _ :: rest => backoff_linear (k + 1) rest
  | Sleep Backoff d :: rest =>
      d = inject_Z (retry_delay * k) /\ backoff_linear k rest
  | _ :: rest => backoff_linear k rest
  end.

(** From the [q]-th request on, every request for [url] raises. *)
Definition persistently_failing (e : env) (url : string) (q : nat) : Prop :=
  forall n, (q <= n)%nat -> session_get e n url = RequestException.

(** [n] attempts in a row that all raise, entered with the counter at
    [retries]: after each but the last, the sleep of line 81. *)
Fixpoint backed_off_attempts (e : env) (url : string) (retries : Z)
    (d n : nat) : list event :=
  match n with
  | O => []
  | S n' =>
      Sleep PreRequest (uniform_at e 2 5 d) :: Get url ::
      match n' with
      | O => []
      | S _ =>
          Sleep Backoff (inject_Z (retry_delay * (retries + 1))) ::
          backed_off_attempts e url (retries + 1) (S d) n'
      end
  end.

(** ** The run as section 4.5 of the specification words it

    "For page index 1..pageCount: construct the page URL, call the
    fetcher; on absent result continue to the next page index; otherwise
    call the locator, then the extractor per located element, appending
    successful extractions to the output sequence. Between pages (not
    after the last), sleep a pacing delay." *)

(** The successful extractions of a page, given what its fetch
    returned. *)
Definition extracted (e : env) (content : option string)
  : list (gmap string string) :=
  match content with
  | Some html => omap parse_listing (find_listings (BeautifulSoup e) (Some html))
  | None => []
  end.

(** What follows the fetch of page [p] when it returned [content], with
    [d] random numbers drawn so far: nothing for a page without content;
    otherwise the page is saved, and the pacing delay is slept unless [p]
    is the last page. *)
Definition after_fetch (e : env) (max_pages p : Z) (d : nat)
    (content : option string) : list event :=
  match content with
  | None => []
  | Some html =>
      if bool_decide (html = "") then []
      else WriteHtml p html ::
           (if bool_decide (p < max_pages)
            then [Sleep Pacing (uniform_at e 10 20 d)] else [])
  end.

(** One page index. *)
Definition visit_page (e : env) (max_pages p : Z)
  : M (list (gmap string string)) :=
  fun s =>
    let '(content, s1) := fetch_page e (page_url p) 3 s in
    let tail := after_fetch e max_pages p (draws s1) content in
    (extracted e content,
     {| draws := draws s1 + length (slept Pacing tail);
        requests := requests s1;
        events := events s1 ++ tail |}).

(** The page indices in order, the extractions concatenated. *)
Fixpoint run_pages (e : env) (max_pages : Z) (pages : list Z)
  : M (list (gmap string string)) :=
  match pages with
  | [] => mret []
  | p :: rest =>
      here ← visit_page e max_pages p;
      later ← run_pages e max_pages rest;
      mret (here ++ later)%list
  end.



(** Every random number lies between 0 and 1. *)
Definition unit_interval (e : env) : Prop :=
  forall n, (0 <= random e n <= 1)%Q.

(** ** Records and nodes *)

(** The dictionary of lines 151-158, as a function of its six values. *)
Definition record_of (title price location date_posted link image_url : string)
  : gmap string string :=
  {[ "title" := title; "price" := price; "location" := location;
     "date_posted" := date_posted; "link" := link;
     "image_url" := image_url ]}.

(** The record whose six fields are the sentinel. *)
Definition all_sentinel : gmap string string :=
  record_of sentinel sentinel sentinel sentinel sentinel sentinel.

(** A node is a tag whose name is [name]. *)
Definition named (name : string) (n : node) : bool := Soup.tag_in [name] n.

(** The attributes of a node; a text node has none. *)
Definition attrs_of (n : node) : gmap string string :=
  match n with
  | Tag _ _ attrs _ => attrs
  | NavigableString _ | Comment _ => ∅
  end.

(** A node is a string, of any kind. *)
Definition is_text (n : node) : bool :=
  match n with
  | NavigableString _ | Comment _ => true
  | Tag _ _ _ _ => false
  end.

(** ** Further notions *)

(** An outcome that makes [fetch_page] try again: an exception, a
    challenge page, a status other than 200. *)
Definition failed (o : outcome) : Prop :=
  match o with
  | Response status_code text => blocked text = true \/ status_code <> 200
  | RequestException => True
  end.

(** The seconds slept in some events, all places together. *)
Fixpoint total_sleep (ev : list event) : Q :=
  match ev with
  | [] => 0%Q
  | Sleep _ d :: rest => (d + total_sleep rest)%Q
  | _ :: rest => total_sleep rest
  end.

(** The pages saved in some events. *)
Fixpoint saved (ev : list event) : list (Z * string) :=
  match ev with
  | [] => []
  | WriteHtml p html :: rest => (p, html) :: saved rest
  | _ :: rest => saved rest
  end.

(** A node is a tag. *)
Definition is_tag (n : node) : bool := negb (is_text n).

(** A node is a string, of any kind, with the rupee sign in it. *)
Definition rupee_string (n : node) : bool :=
  match n with
  | NavigableString t | Comment t => Str.contains rupee t
  | Tag _ _ _ _ => false
  end.

(** ** The heuristic of the general approach, on the tree

    The notions of lines 189-199 in terms of the tree alone. *)







(** A node is an anchor. *)
Definition anchor (d : node) : Prop :=
  exists cls attrs contents, d = Tag "a" cls attrs contents.

(** A saved page and the requests [ev] of a run that started when [q]
    requests had been issued: the page is not empty, is no challenge
    page, and is the body of the response, with status 200, to one of
    the requests of the run, which asked for the URL of that page. *)
Definition served_in (e : env) (q : nat) (ev : list event)
    (entry : Z * string) : Prop :=
  entry.2 <> "" /\ blocked entry.2 = false /\
  exists k : nat,
    requested ev !! k = Some (page_url entry.1) /\
    session_get e (q + k) (page_url entry.1) = Response 200 entry.2.


(** ** Sample inputs *)

(** A listing with a price in the current markup and one in the legacy
    markup. *)
Definition two_prices : node :=
  Tag "li" (Some ["EIR5N"]) ∅
    [ Tag "span" (Some ["_2Ks63"]) ∅ [NavigableString " Rs 500 "];
      Tag "span" (Some ["price"]) ∅ [NavigableString "Rs 999"] ].

(** A listing with three prices: in the first, the second and the fourth
    markup of the price cascade. *)
Definition three_prices : node :=
  Tag "li" (Some ["EIR5N"]) ∅
    [ Tag "span" (Some ["_2Ks63"]) ∅ [NavigableString "Rs 100"];
      Tag "span" (Some ["olx-price-new"]) ∅ [NavigableString "Rs 200"];
      Tag "span" (Some ["price"]) ∅ [NavigableString "Rs 400"] ].

(** A listing whose price has a no-break space (U+00A0, bytes C2 A0) on
    each side and a comment inside. *)
Definition padded_price : node :=
  Tag "li" None ∅
    [ Tag "span" (Some ["price"]) ∅
        [ NavigableString
            (String "194" (String "160" "Rs 500") +:+
             String "194" (String "160" EmptyString));
          Comment " old price: Rs 450 " ] ].

(** A listing whose price element is there and has no text. *)
Definition empty_price : node :=
  Tag "li" None ∅ [ Tag "span" (Some ["price"]) ∅ [] ].

(** A listing with a relative link. *)
Definition relative_link : node :=
  Tag "li" None ∅ [ Tag "a" None {[ "href" := "/item/123" ]} [] ].

(** A parser that finds nothing in any page. *)
Definition empty_soup (_ : string) : node := Tag "[document]" None ∅ [].

(** Every request has the outcome [o]; every random number is [1/2]. *)
Definition always (o : outcome) : env :=
  {| random := fun _ => (1 # 2)%Q;
     session_get := fun _ _ => o;
     BeautifulSoup := empty_soup |}.

(** A parser that finds the listing [two_prices] in every page. *)
Definition one_listing_soup (_ : string) : node :=
  Tag "[document]" None ∅ [ two_prices ].

(** The first request is answered with a page, the later ones with the
    status 503. *)
Definition first_page_only : env :=
  {| random := fun _ => (1 # 2)%Q;
     session_get := fun n _ =>
       match n with
       | O => Response 200 "<li class=EIR5N>...</li>"
       | S _ => Response 503 "Service Unavailable"
       end;
     BeautifulSoup := one_listing_soup |}.

(** A parser that finds, in every page, no known listing markup but two
    containers: a card with a name and a link, and an empty one. *)
Definition card : node :=
  Tag "div" (Some ["card"]) ∅
    [ Tag "span" (Some ["name"]) ∅ [NavigableString "Car cover"];
      Tag "a" None {[ "href" := "/item/7" ]} [] ].

Definition generic_soup (_ : string) : node :=
  Tag "[document]" None ∅ [ card; Tag "div" (Some ["banner"]) ∅ [] ].

(** The first request is answered with the status 503, the later ones
    with a page. *)
Definition second_try : env :=
  {| random := fun _ => (1 # 2)%Q;
     session_get := fun n _ =>
       match n with
       | O => Response 503 "Service Unavailable"
       | S _ => Response 200 "<li class=EIR5N>...</li>"
       end;
     BeautifulSoup := one_listing_soup |}.

(** A listing whose first anchor has no target and whose second one
    has. *)
Definition anchor_without_target : node :=
  Tag "li" None ∅
    [ Tag "a" None {[ "name" := "top" ]} [];
      Tag "a" None {[ "href" := "/item/9" ]} [] ].

(** A listing whose image is loaded lazily: a placeholder in [src], the
    picture in [data-src]. *)
Definition lazy_image : node :=
  Tag "li" None ∅
    [ Tag "img" None {[ "src" := "placeholder.gif";
                        "data-src" := "https://img.olx.in/9.jpg" ]} [] ].



(** A parser that finds, in every page, no known listing markup but the
    container [card] inside another container. *)
Definition nested_soup (_ : string) : node :=
  Tag "[document]" None ∅ [ Tag "div" (Some ["results"]) ∅ [ card ] ].

(** Every request is answered with status 200 and an empty body. *)
Definition empty_pages : env := always (Response 200 "").

(** * Lemmas and theorems *)

Lemma state_eq (s : state) d q ev :
  draws s = d -> requests s = q -> events s = ev ->
  s = {| draws := d; requests := q; events := ev |}.
Proof. destruct s; simpl; congruence. Qed.

Lemma advance_nil s : advance s [] = s.
Proof.
  symmetry. apply state_eq; simpl; [lia | lia | now rewrite app_nil_r].
Qed.

Lemma fetch_loop_exit e url max_retries retries s :
  ~ retries < max_retries ->
  fetch_loop e url max_retries retries s = (None, s).
Proof.
  intros H. simp fetch_loop.
  destruct (decide (retries < max_retries)); [lia | reflexivity].
Qed.

Lemma fetch_loop_enter e url max_retries retries s :
  retries < max_retries ->
  fetch_loop e url max_retries retries s =
  let s1 := requested_once e url s in
  match session_get e (requests s) url with
  | Response status_code text =>
      if blocked text || negb (status_code =? 200)%Z then
        fetch_loop e url max_retries (retries + 1)
                   (slept_once Cooldown (inject_Z retry_delay) s1)
      else (Some text, s1)
  | RequestException =>
      if bool_decide (retries + 1 < max_retries) then
        fetch_loop e url max_retries (retries + 1)
          (slept_once Backoff (inject_Z (retry_delay * (retries + 1))) s1)
      else (None, s1)
  end.
Proof.
  intros H. rewrite fetch_loop_equation_1.
  destruct (decide (retries < max_retries)); [| lia].
  cbn [fetch_loop_unfold_clause_1].
  unfold mbind, M_bind, uniform, sleep, emit, get, mret, M_ret,
    requested_once, slept_once; cbn.
  destruct (session_get e (requests s) url) as [status_code text |];
    [ destruct (blocked text), (status_code =? 200)%Z | case_bool_decide ];
    simpl; rewrite <- ?app_assoc; reflexivity.
Qed.

(** Two descriptions of one state: same counters, same events up to the
    bracketing of the appends. *)
Ltac same_state :=
  unfold advance, requested_once, slept_once; cbn;
  rewrite <- ?app_assoc; cbn;
  f_equal; solve [lia | reflexivity].

Lemma fetch_loop_attempts e url max_retries (n : nat) :
  forall retries s,
    Z.to_nat (max_retries - retries) = n ->
    exists ev res,
      attempts e url max_retries retries (draws s) (requests s) ev res /\
      fetch_loop e url max_retries retries s = (res, advance s ev).
Proof.
  induction n as [| n IH]; intros retries s Hn.
  - exists [], None. split.
    + constructor. lia.
    + rewrite fetch_loop_exit by lia. now rewrite advance_nil.
  - assert (Hlt : retries < max_retries) by lia.
    rewrite (fetch_loop_enter _ _ _ _ _ Hlt). cbn zeta.
    destruct (session_get e (requests s) url) as [status_code text |] eqn:Hget.
    + destruct (blocked text) eqn:Hb; cbn [orb].
      * destruct (IH (retries + 1)
                    (slept_once Cooldown (inject_Z retry_delay)
                                (requested_once e url s)))
          as (ev & res & Hrun & Heq); [lia |].
        eexists _, res. split.
        -- eapply attempts_blocked; eauto.
        -- rewrite Heq. f_equal. same_state.
      * destruct (status_code =? 200)%Z eqn:Hs; cbn [negb].
        -- apply Z.eqb_eq in Hs. subst status_code.
           eexists _, (Some text). split.
           ++ eapply attempts_success; eauto.
           ++ f_equal. same_state.
        -- apply Z.eqb_neq in Hs.
           destruct (IH (retries + 1)
                       (slept_once Cooldown (inject_Z retry_delay)
                                   (requested_once e url s)))
             as (ev & res & Hrun & Heq); [lia |].
           eexists _, res. split.
           ++ eapply attempts_status; eauto.
           ++ rewrite Heq. f_equal. same_state.
    + case_bool_decide as Hr.
      * destruct (IH (retries + 1)
                    (slept_once Backoff
                       (inject_Z (retry_delay * (retries + 1)))
                       (requested_once e url s)))
          as (ev & res & Hrun & Heq); [lia |].
        eexists _, res. split.
        -- eapply attempts_error_retry; eauto.
        -- rewrite Heq. f_equal. same_state.
      * eexists _, None. split.
        -- eapply attempts_error_give_up; eauto.
        -- f_equal. same_state.
Qed.

(** [fetch_page] always returns, and [attempts] describes what it did. *)
Lemma fetch_page_attempts e url max_retries s :
  exists ev res,
    attempts e url max_retries 0 (draws s) (requests s) ev res /\
    fetch_page e url max_retries s = (res, advance s ev).
Proof. unfold fetch_page. eapply fetch_loop_attempts. reflexivity. Qed.

(** A loop whose every request is answered by a challenge page or by a
    status other than 200 makes all the attempts it has left, sleeps the
    fixed cooldown after each, and returns nothing. *)
Lemma fetch_loop_cooled e url max_retries (n : nat) :
  forall retries s,
    Z.to_nat (max_retries - retries) = n ->
    answers e url (requests s)
      (fun status_code text => blocked text = true \/ status_code <> 200) ->
    fetch_loop e url max_retries retries s =
    (None, advance s (cooled_attempts e url (draws s) n)).
Proof.
  induction n as [| n IH]; intros retries s Hn Hans.
  - rewrite fetch_loop_exit by lia. now rewrite advance_nil.
  - rewrite fetch_loop_enter by lia. cbn zeta.
    destruct (Hans (requests s)) as (status_code & text & Hget & Hbad);
      [lia |].
    rewrite Hget.
    assert (blocked text || negb (status_code =? 200)%Z = true) as ->.
    { destruct Hbad as [-> | Hne]; [reflexivity |].
      apply orb_true_iff. right. apply negb_true_iff. now apply Z.eqb_neq. }
    rewrite IH; [| lia |].
    + f_equal. same_state.
    + intros k Hk. apply Hans. cbn in Hk. lia.
Qed.

Lemma requested_cooled e url d n :
  requested (cooled_attempts e url d n) = replicate n url.
Proof.
  revert d. induction n as [| n IH]; intros d; [reflexivity |].
  cbn. now rewrite <- (IH (S d)).
Qed.

Lemma blocked_phrase text :
  Str.contains "detected unusual traffic" (Str.lower text) = true ->
  blocked text = true.
Proof. intros H. unfold blocked. rewrite H. apply orb_true_r. Qed.

Lemma attempts_bounded e url max_retries retries d q ev res :
  attempts e url max_retries retries d q ev res ->
  (length (requested ev) <= Z.to_nat (max_retries - retries))%nat.
Proof.
  induction 1; cbn in *; lia.
Qed.

Lemma attempts_backoff_linear e url max_retries retries d q ev res :
  attempts e url max_retries retries d q ev res ->
  backoff_linear retries ev.
Proof.
  induction 1; cbn; auto.
Qed.

Lemma inject_Z_lt (a b : Z) : a < b -> (inject_Z a < inject_Z b)%Q.
Proof. intros H. unfold Qlt; cbn. lia. Qed.

Lemma backoff_above_weaken (a b : Z) (l : list Q) :
  a <= b ->
  Forall (fun x => (inject_Z b < x)%Q) l ->
  Forall (fun x => (inject_Z a < x)%Q) l.
Proof.
  intros Hab Hl. eapply Forall_impl; [exact Hl |]. intros x Hx.
  eapply Qle_lt_trans; [| exact Hx]. unfold Qle; cbn. lia.
Qed.

(** The sleeps of line 81 get longer and longer: each is above
    [retry_delay * retries] for the value of [retries] on entry, and
    below all the later ones. *)
Lemma attempts_backoff_sorted e url max_retries retries d q ev res :
  attempts e url max_retries retries d q ev res ->
  Forall (fun x => (inject_Z (retry_delay * retries) < x)%Q)
         (slept Backoff ev) /\
  StronglySorted Qlt (slept Backoff ev).
Proof.
  induction 1 as [ | ? ? ? ? ? ? ? ? ? ? ? [IHa IHs]
                   | ? ? ? ? ? ? ? ? ? ? ? ? [IHa IHs] | |
                   ? ? ? ? ? ? ? ? ? [IHa IHs] | ]; cbn.
  - split; constructor.
  - split; [| exact IHs].
    eapply backoff_above_weaken; [| exact IHa]. unfold retry_delay. lia.
  - split; [| exact IHs].
    eapply backoff_above_weaken; [| exact IHa]. unfold retry_delay. lia.
  - split; constructor.
  - split.
    + constructor.
      * apply inject_Z_lt. unfold retry_delay. lia.
      * eapply backoff_above_weaken; [| exact IHa]. unfold retry_delay. lia.
    + constructor; assumption.
  - split; constructor.
Qed.

(** A loop whose every request raises makes all the attempts it has
    left, sleeps the growing delay of line 81 between them, and returns
    nothing. *)
Lemma fetch_loop_backed_off e url max_retries (n : nat) :
  forall retries s,
    Z.to_nat (max_retries - retries) = n ->
    persistently_failing e url (requests s) ->
    fetch_loop e url max_retries retries s =
    (None, advance s (backed_off_attempts e url retries (draws s) n)).
Proof.
  induction n as [| n IH]; intros retries s Hn Hfail.
  - rewrite fetch_loop_exit by lia. now rewrite advance_nil.
  - rewrite fetch_loop_enter by lia. cbn zeta.
    rewrite (Hfail (requests s)) by lia.
    destruct n as [| n].
    + rewrite bool_decide_eq_false_2 by lia. f_equal. same_state.
    + rewrite bool_decide_eq_true_2 by lia.
      rewrite IH; [| lia |].
      * f_equal. same_state.
      * intros k Hk. apply Hfail. cbn in Hk. lia.
Qed.

Lemma slept_backed_off e url (n : nat) :
  forall retries d,
    slept Backoff (backed_off_attempts e url retries d n) =
    (fun k => inject_Z (retry_delay * k)) <$> seqZ (retries + 1) (Z.of_nat n - 1).
Proof.
  induction n as [| n IH]; intros retries d.
  - by rewrite seqZ_nil by lia.
  - destruct n as [| n].
    + by rewrite seqZ_nil by lia.
    + change (slept Backoff (backed_off_attempts e url retries d (S (S n))))
        with (inject_Z (retry_delay * (retries + 1)) ::
              slept Backoff (backed_off_attempts e url (retries + 1) (S d) (S n))).
      rewrite IH, (seqZ_cons (retries + 1)) by lia. cbn [fmap list_fmap].
      f_equal. f_equal. f_equal; lia.
Qed.

(** C10. [fetch_page] called with [max_retries <= 0] returns nothing at
    once: the state is the one it was called in, so no request was issued
    and no delay was slept. *)
Theorem fetch_page_without_retries e url max_retries s :
  max_retries <= 0 ->
  fetch_page e url max_retries s = (None, s).
Proof.
  intros H. unfold fetch_page. apply fetch_loop_exit. lia.
Qed.

Lemma fetch_page_without_retries_witness :
  fetch_page (always (Response 200 "<html></html>")) base_url 0 initial =
  (None, initial).
Proof. apply fetch_page_without_retries. lia. Defined.

(** C2. For [max_retries >= 1]: when every response has a status other
    than 200, [fetch_page] returns nothing after exactly [max_retries]
    requests, each followed by the fixed cooldown; when every request
    raises, it returns nothing after exactly [max_retries] requests and
    the sleeps between them are [retry_delay] times 1, 2, ...,
    [max_retries - 1]; and in every run there are at most [max_retries]
    requests, each sleep of the network-error branch lasts [retry_delay]
    times the number of attempts made so far, and these sleeps are
    strictly increasing. *)
Theorem fetch_page_retries_bounded e url max_retries s :
  1 <= max_retries ->
  (persistently_not_ok e url (requests s) ->
   fetch_page e url max_retries s =
   (None, advance s (cooled_attempts e url (draws s) (Z.to_nat max_retries)))
   /\ requested (cooled_attempts e url (draws s) (Z.to_nat max_retries)) =
      replicate (Z.to_nat max_retries) url) /\
  (persistently_failing e url (requests s) ->
   let ev := backed_off_attempts e url 0 (draws s) (Z.to_nat max_retries) in
   fetch_page e url max_retries s = (None, advance s ev) /\
   slept Backoff ev =
   (fun k => inject_Z (retry_delay * k)) <$> seqZ 1 (max_retries - 1)) /\
  exists ev res,
    fetch_page e url max_retries s = (res, advance s ev) /\
    (length (requested ev) <= Z.to_nat max_retries)%nat /\
    backoff_linear 0 ev /\
    StronglySorted Qlt (slept Backoff ev).
Proof.
  intros Hmax. split; [| split].
  - intros Hnot. split; [| apply requested_cooled].
    unfold fetch_page. apply fetch_loop_cooled; [f_equal; lia |].
    intros n Hn. destruct (Hnot n Hn) as (status_code & text & Hget & Hne).
    exists status_code, text. auto.
  - intros Hfail ev. split.
    + unfold fetch_page. apply fetch_loop_backed_off; [f_equal; lia | done].
    + unfold ev. rewrite slept_backed_off. do 2 f_equal. lia.
  - destruct (fetch_page_attempts e url max_retries s)
      as (ev & res & Hrun & Heq).
    exists ev, res. split; [exact Heq |]. split; [| split].
    + apply attempts_bounded in Hrun.
      now replace (max_retries - 0) with max_retries in Hrun by lia.
    + eapply attempts_backoff_linear, Hrun.
    + eapply attempts_backoff_sorted, Hrun.
Qed.

(** With three retries and a network that is down, the two sleeps
    between the three attempts last 30 and 60 seconds. *)
Example network_down_backoff :
  slept Backoff
    (events (snd (fetch_page (always RequestException) base_url 3 initial))) =
  [30%Q; 60%Q].
Proof. vm_compute. reflexivity. Qed.

Lemma fetch_page_retries_bounded_witness :
  fetch_page (always (Response 503 "Service Unavailable")) base_url 3 initial =
  (None,
   advance initial
     (cooled_attempts (always (Response 503 "Service Unavailable"))
                      base_url 0 3)).
Proof.
  apply (fetch_page_retries_bounded
           (always (Response 503 "Service Unavailable")) base_url 3 initial).
  - lia.
  - intros n _. exists 503, "Service Unavailable". split; [reflexivity | lia].
Defined.

(** C3, as the code has it. When every response for [url] has a body
    that contains "detected unusual traffic", whatever the case of its
    letters, [fetch_page] returns nothing after [max_retries] attempts,
    each followed by the fixed cooldown [retry_delay] and none by the
    growing sleep of the network-error branch. *)
Theorem fetch_page_challenged e url max_retries s :
  persistently_containing "detected unusual traffic" e url (requests s) ->
  fetch_page e url max_retries s =
  (None, advance s (cooled_attempts e url (draws s) (Z.to_nat max_retries)))
  /\ requested (cooled_attempts e url (draws s) (Z.to_nat max_retries)) =
     replicate (Z.to_nat max_retries) url
  /\ slept Backoff (cooled_attempts e url (draws s) (Z.to_nat max_retries)) = [].
Proof.
  intros Hch. split; [| split; [apply requested_cooled |]].
  - unfold fetch_page. apply fetch_loop_cooled; [f_equal; lia |].
    intros n Hn. destruct (Hch n Hn) as (status_code & text & Hget & Hin).
    exists status_code, text. split; [exact Hget |].
    left. now apply blocked_phrase.
  - generalize (draws s). induction (Z.to_nat max_retries) as [| n IH];
      intros d; [reflexivity | apply (IH (S d))].
Qed.

Lemma fetch_page_challenged_witness :
  fetch_page (always (Response 200 "We have DETECTED unusual traffic."))
             base_url 3 initial =
  (None,
   advance initial
     (cooled_attempts (always (Response 200 "We have DETECTED unusual traffic."))
                      base_url 0 3)).
Proof.
  apply (fetch_page_challenged
           (always (Response 200 "We have DETECTED unusual traffic."))
           base_url 3 initial).
  intros n _. exists 200, "We have DETECTED unusual traffic.".
  split; reflexivity.
Defined.

(** C3, as the claim states it, fails: a page that says "unusual traffic"
    without the word "detected" in front, served with status 200, is
    returned as a success at the first attempt. *)
Lemma unusual_traffic_alone_is_fetched :
  ~ (forall e url max_retries s,
       persistently_containing "unusual traffic" e url (requests s) ->
       fst (fetch_page e url max_retries s) = None).
Proof.
  intros H.
  specialize (H (always (Response 200 "Unusual traffic from your network"))
                base_url 3 initial).
  assert (Hin : persistently_containing "unusual traffic"
                  (always (Response 200 "Unusual traffic from your network"))
                  base_url (requests initial)).
  { intros n _. exists 200, "Unusual traffic from your network".
    split; reflexivity. }
  specialize (H Hin). vm_compute in H. discriminate H.
Qed.

(** ** One listing *)

Lemma record_of_lookup title price location date_posted link image_url :
  let result := record_of title price location date_posted link image_url in
  result !! "title" = Some title /\
  result !! "price" = Some price /\
  result !! "location" = Some location /\
  result !! "date_posted" = Some date_posted /\
  result !! "link" = Some link /\
  result !! "image_url" = Some image_url.
Proof. unfold record_of. repeat split; by simplify_map_eq. Qed.

Lemma record_of_dom title price location date_posted link image_url :
  dom (record_of title price location date_posted link image_url) =
  record_keys.
Proof.
  unfold record_of, record_keys.
  rewrite !dom_insert_L, dom_singleton_L. set_solver.
Qed.

Lemma record_of_not_empty title price location date_posted link image_url :
  record_of title price location date_posted link image_url <> ∅.
Proof.
  intros H.
  pose proof (record_of_lookup title price location date_posted link image_url)
    as (Ht & _).
  rewrite H in Ht. by rewrite lookup_empty in Ht.
Qed.

Lemma parse_listing_tag name cls attrs contents :
  let listing := Tag name cls attrs contents in
  parse_listing listing =
  Some (record_of (first_text listing title_selectors)
                  (first_text listing price_selectors)
                  (first_text listing loc_selectors)
                  (first_text listing date_selectors)
                  (extract_link listing) (extract_image listing)).
Proof. reflexivity. Qed.

(** A text field of the record is what the loop over its cascade left. *)
Lemma parse_listing_field name cls attrs contents field cascade :
  cascade_of field = Some cascade ->
  exists r,
    parse_listing (Tag name cls attrs contents) = Some r /\
    r !! field = Some (first_text (Tag name cls attrs contents) cascade).
Proof.
  intros Hc. eexists. split; [apply parse_listing_tag |]. cbn zeta.
  match goal with |- ?m !! _ = _ => set (r := m) end.
  pose proof (record_of_lookup
    (first_text (Tag name cls attrs contents) title_selectors)
    (first_text (Tag name cls attrs contents) price_selectors)
    (first_text (Tag name cls attrs contents) loc_selectors)
    (first_text (Tag name cls attrs contents) date_selectors)
    (extract_link (Tag name cls attrs contents))
    (extract_image (Tag name cls attrs contents)))
    as (Ht & Hp & Hl & Hd & _).
  unfold cascade_of in Hc.
  repeat case_bool_decide; try discriminate Hc;
    injection Hc as <-; subst field; assumption.
Qed.

(** What the loop over a cascade leaves: the sentinel, or the stripped
    text of a node that one of the selectors matched. *)
Lemma first_text_cases listing cascade :
  first_text listing cascade = sentinel \/
  exists sel elem,
    sel ∈ cascade /\ Soup.select_one sel listing = Some elem /\
    first_text listing cascade = Str.strip (Soup.text elem).
Proof.
  induction cascade as [| sel rest IH]; cbn; [by left |].
  destruct (Soup.select_one sel listing) as [elem |] eqn:Hsel.
  - right. exists sel, elem. repeat split; [apply list_elem_of_here | done].
  - destruct IH as [IH | (sel' & elem & Hin & Hone & Heq)]; [by left |].
    right. exists sel', elem. repeat split; [by apply list_elem_of_further | done | done].
Qed.

Lemma first_text_no_match listing cascade :
  Forall (fun sel => Soup.select_one sel listing = None) cascade ->
  first_text listing cascade = sentinel.
Proof.
  induction 1 as [| sel rest Hsel _ IH]; cbn; [done |]. by rewrite Hsel.
Qed.

(** First match wins: the selectors before [cur] match nothing, [cur]
    matches [elem]; then whatever comes after [cur] plays no part. *)
Lemma first_text_first_match listing before cur after elem :
  Forall (fun sel => Soup.select_one sel listing = None) before ->
  Soup.select_one cur listing = Some elem ->
  first_text listing (before ++ cur :: after) = Str.strip (Soup.text elem).
Proof.
  induction 1 as [| sel rest Hsel _ IH]; intros Hcur; cbn.
  - by rewrite Hcur.
  - rewrite Hsel. by apply IH.
Qed.

(** Once a selector of the cascade matches, the selectors after it are
    not consulted: any other tail gives the same value. *)
Lemma first_text_matched_prefix listing before cur elem after :
  Soup.select_one cur listing = Some elem ->
  first_text listing ((before ++ [cur]) ++ after) =
  first_text listing (before ++ [cur]).
Proof.
  intros Hcur. induction before as [| sel rest IH]; cbn.
  - by rewrite Hcur.
  - destruct (Soup.select_one sel listing); [done | exact IH].
Qed.

Lemma filter_none {A} (f : A -> bool) (l : list A) :
  Forall (fun x => f x = false) l -> List.filter f l = [].
Proof.
  induction 1 as [| x l Hx _ IH]; cbn; [done |]. by rewrite Hx.
Qed.

Lemma head_filter_named {A} (f : A -> bool) (l : list A) x :
  head (List.filter f l) = Some x -> f x = true /\ x ∈ l.
Proof.
  induction l as [| y l IH]; cbn; [done |].
  destruct (f y) eqn:Hy; cbn.
  - intros [= ->]. split; [done | apply list_elem_of_here].
  - intros H. destruct (IH H). split; [done | by apply list_elem_of_further].
Qed.

Lemma find_is_tag names p n x :
  Soup.find names p n = Some x ->
  exists name cls attrs contents, x = Tag name cls attrs contents.
Proof.
  intros H. apply head_filter_named in H as [H _].
  destruct x as [| | name cls attrs contents]; [done | done | eauto].
Qed.

Lemma startswith_nonempty p c s :
  Str.startswith (String c p) s = true -> s <> "".
Proof. by destruct s. Qed.

Lemma extract_link_cases listing :
  match Soup.find ["a"] (fun _ => true) listing with
  | Some anchor =>
      match attrs_of anchor !! "href" with
      | Some href =>
          extract_link listing =
          if Str.startswith "http" href then href else origin +:+ href
      | None => extract_link listing = sentinel
      end
  | None => extract_link listing = sentinel
  end.
Proof.
  unfold extract_link.
  destruct (Soup.find ["a"] (fun _ => true) listing) as [anchor |] eqn:Hfind;
    [| done].
  destruct (find_is_tag _ _ _ _ Hfind) as (name & cls & attrs & contents & ->).
  cbn. by destruct (attrs !! "href").
Qed.

Lemma extract_link_nonempty listing : extract_link listing <> "".
Proof.
  pose proof (extract_link_cases listing) as H.
  destruct (Soup.find ["a"] (fun _ => true) listing) as [anchor |];
    [| by rewrite H].
  destruct (attrs_of anchor !! "href") as [href |]; [| by rewrite H].
  rewrite H. destruct (Str.startswith "http" href) eqn:Hs; [| done].
  by eapply startswith_nonempty.
Qed.

Lemma first_attr_cases attrs names :
  first_attr attrs names = sentinel \/
  exists attr, attr ∈ names /\ attrs !! attr = Some (first_attr attrs names).
Proof.
  induction names as [| attr rest IH]; cbn; [by left |].
  destruct (attrs !! attr) as [value |] eqn:Hattr.
  - right. exists attr. split; [apply list_elem_of_here | done].
  - destruct IH as [IH | (attr' & Hin & Hval)]; [by left |].
    right. exists attr'. split; [by apply list_elem_of_further | done].
Qed.

Lemma extract_image_cases listing :
  extract_image listing = sentinel \/
  exists img attr,
    Soup.find ["img"] (fun _ => true) listing = Some img /\
    attr ∈ ["src"; "data-src"; "srcset"] /\
    attrs_of img !! attr = Some (extract_image listing).
Proof.
  unfold extract_image.
  destruct (Soup.find ["img"] (fun _ => true) listing) as [img |] eqn:Hfind;
    [| by left].
  destruct (find_is_tag _ _ _ _ Hfind) as (name & cls & attrs & contents & ->).
  destruct (first_attr_cases attrs ["src"; "data-src"; "srcset"])
    as [H | (attr & Hin & Hval)]; [by left |].
  right. eexists _, attr. split; [reflexivity |]. by split.
Qed.

(** Below a tag that has only text below it, no selector and no [find]
    matches anything. *)
Lemma select_one_text_only listing sel :
  Forall (fun d => is_text d = true) (Soup.descendants listing) ->
  Soup.select_one sel listing = None.
Proof.
  intros H. unfold Soup.select_one, Soup.select. rewrite filter_none; [done |].
  eapply Forall_impl; [exact H |]. by intros [].
Qed.

Lemma find_text_only listing names p :
  Forall (fun d => is_text d = true) (Soup.descendants listing) ->
  Soup.find names p listing = None.
Proof.
  intros H. unfold Soup.find, Soup.find_all. rewrite filter_none; [done |].
  eapply Forall_impl; [exact H |]. by intros [].
Qed.

(** C1, as the code has it. [parse_listing] drops a string and turns
    every tag into a record with exactly the six keys. A text field is the
    sentinel or the stripped text of a node matched by a selector of its
    cascade (a text that may be empty); the link is never empty; the image
    is the sentinel or the value of [src], [data-src] or [srcset] of the
    first image. A tag with only text below it gives the all-sentinel
    record. *)
Theorem parse_listing_record listing :
  match listing with
  | NavigableString _ | Comment _ => parse_listing listing = None
  | Tag _ _ _ _ =>
      exists r,
        parse_listing listing = Some r /\
        dom r = record_keys /\
        (forall field cascade,
            cascade_of field = Some cascade ->
            exists v,
              r !! field = Some v /\
              (v = sentinel \/
               exists sel elem,
                 sel ∈ cascade /\ Soup.select_one sel listing = Some elem /\
                 v = Str.strip (Soup.text elem))) /\
        (exists v, r !! "link" = Some v /\ v <> "") /\
        (exists v,
            r !! "image_url" = Some v /\
            (v = sentinel \/
             exists img attr,
               Soup.find ["img"] (fun _ => true) listing = Some img /\
               attr ∈ ["src"; "data-src"; "srcset"] /\
               attrs_of img !! attr = Some v)) /\
        (Forall (fun d => is_text d = true) (Soup.descendants listing) ->
         r = all_sentinel)
  end.
Proof.
  destruct listing as [s | s | name cls attrs contents];
    [reflexivity | reflexivity |].
  set (listing := Tag name cls attrs contents).
  eexists. split; [apply parse_listing_tag |]. cbn zeta. fold listing.
  split; [apply record_of_dom |].
  split; [| split; [| split]].
  - intros field cascade Hc.
    destruct (parse_listing_field name cls attrs contents field cascade Hc)
      as (r & Hr & Hv).
    rewrite parse_listing_tag in Hr. injection Hr as <-.
    eexists. split; [exact Hv |]. apply first_text_cases.
  - exists (extract_link listing). split; [| apply extract_link_nonempty].
    apply record_of_lookup.
  - exists (extract_image listing). split; [apply record_of_lookup |].
    apply extract_image_cases.
  - intros Htext. unfold all_sentinel.
    rewrite !first_text_no_match
      by (apply Forall_forall; intros sel _;
          by apply select_one_text_only).
    unfold extract_link, extract_image.
    by rewrite !find_text_only.
Qed.

(** C1, as the claim states it, fails: the price element of
    [empty_price] is matched and has no text, and the price of the record
    is the empty string, which is neither the sentinel nor non-empty. *)
Lemma empty_price_is_empty :
  ~ (forall listing r,
       parse_listing listing = Some r ->
       forall field v, r !! field = Some v -> v = sentinel \/ v <> "").
Proof.
  intros H.
  destruct (parse_listing_field "li" None ∅
              [Tag "span" (Some ["price"]) ∅ []] "price" price_selectors
              eq_refl) as (r & Hr & Hprice).
  destruct (H empty_price r Hr "price" _ Hprice) as [Hs | Hne].
  - vm_compute in Hs. discriminate Hs.
  - apply Hne. vm_compute. reflexivity.
Qed.

(** C4, as the code has it. First match wins: when the selector [cur]
    at position [i] of a field's cascade matches a node below the
    listing and no selector before it matches anything, the field is the
    stripped text of that node, whatever the selectors after [cur] match;
    they are never consulted, for the value is the same with any other
    selectors in their place. *)
Theorem cascade_first_match_wins listing field cascade (i : nat) cur elem :
  cascade_of field = Some cascade ->
  cascade !! i = Some cur ->
  Soup.select_one cur listing = Some elem ->
  Forall (fun sel => Soup.select_one sel listing = None) (take i cascade) ->
  exists r,
    parse_listing listing = Some r /\
    r !! field = Some (Str.strip (Soup.text elem)) /\
    (forall others,
        first_text listing (take (S i) cascade ++ others) =
        Str.strip (Soup.text elem)).
Proof.
  intros Hc Hi Hcur Hnone.
  destruct listing as [s | s | name cls attrs contents]; [done | done |].
  set (listing := Tag name cls attrs contents) in *.
  destruct (parse_listing_field name cls attrs contents field cascade Hc)
    as (r & Hr & Hv). fold listing in Hr, Hv.
  assert (Htake : take (S i) cascade = (take i cascade ++ [cur])%list)
    by (by apply take_S_r).
  assert (Hsplit : cascade =
                   (take i cascade ++ cur :: drop (S i) cascade)%list).
  { rewrite <- (take_drop (S i) cascade) at 1.
    by rewrite Htake, <- app_assoc. }
  exists r. split; [exact Hr |]. split.
  - rewrite Hv, Hsplit. f_equal. by apply first_text_first_match.
  - intros others. rewrite Htake, <- app_assoc.
    by apply first_text_first_match.
Qed.

Lemma cascade_first_match_wins_witness :
  exists r,
    parse_listing two_prices = Some r /\
    r !! "price" = Some "Rs 500" /\
    (forall others,
        first_text two_prices (take 1 price_selectors ++ others) = "Rs 500").
Proof.
  apply (cascade_first_match_wins two_prices "price" price_selectors 0
           (TagClass "span" "_2Ks63")
           (Tag "span" (Some ["_2Ks63"]) ∅ [NavigableString " Rs 500 "]));
    first [reflexivity | constructor].
Defined.

(** C4, as the claim states it, fails: [three_prices] matches the second
    selector of the price cascade and, later in the cascade, the fourth,
    and its price is the text of neither: it is the text matched by the
    first selector. *)
Lemma earlier_of_two_is_not_first :
  ~ (forall listing field cascade (i j : nat) cur legacy elem elem',
       cascade_of field = Some cascade ->
       cascade !! i = Some cur ->
       cascade !! j = Some legacy ->
       (i < j)%nat ->
       Soup.select_one cur listing = Some elem ->
       Soup.select_one legacy listing = Some elem' ->
       parse_listing listing ≫= (.!! field) =
       Some (Str.strip (Soup.text elem))).
Proof.
  intros H.
  specialize (H three_prices "price" price_selectors 1%nat 3%nat
                (TagClass "span" "olx-price-new") (TagClass "span" "price")
                (Tag "span" (Some ["olx-price-new"]) ∅
                     [NavigableString "Rs 200"])
                (Tag "span" (Some ["price"]) ∅ [NavigableString "Rs 400"])
                eq_refl eq_refl eq_refl ltac:(lia) eq_refl eq_refl).
  vm_compute in H. discriminate H.
Qed.

(** The field of [three_prices] is the price in the first markup. *)
Example three_prices_price :
  parse_listing three_prices ≫= (.!! "price") = Some "Rs 100".
Proof. vm_compute. reflexivity. Qed.

(** An ideographic space (U+3000, bytes E3 80 80) in front and a thin
    space (U+2009, bytes E2 80 89) behind are stripped; the space inside
    stays. *)
Example strip_wide_spaces :
  Str.strip (String "227" (String "128" (String "128" "Rs 500")) +:+
             String "226" (String "128" (String "137" " "))) = "Rs 500".
Proof. vm_compute. reflexivity. Qed.

(** No-break spaces around a text are stripped like ASCII spaces, and a
    comment inside the element is no part of its text. *)
Example padded_price_price :
  parse_listing padded_price ≫= (.!! "price") = Some "Rs 500".
Proof. vm_compute. reflexivity. Qed.

Lemma not_anchor_named d : ~ anchor d -> named "a" d = false.
Proof.
  intros Hd. destruct d as [s | s | name cls attrs contents]; [done | done |].
  unfold named, Soup.tag_in. apply bool_decide_eq_false_2.
  intros Hin. apply Hd. apply list_elem_of_singleton in Hin as ->.
  by eexists _, _, _.
Qed.

Lemma head_filter_first {A} (f : A -> bool) (before : list A) x after :
  Forall (fun y => f y = false) before ->
  f x = true ->
  head (List.filter f (before ++ x :: after)) = Some x.
Proof.
  induction 1 as [| y before Hy _ IH]; intros Hx; cbn.
  - by rewrite Hx.
  - rewrite Hy. by apply IH.
Qed.

(** The first anchor in document order is the one that [find('a')]
    returns. *)
Lemma find_first_anchor listing before cls attrs contents after :
  Soup.descendants listing =
    (before ++ Tag "a" cls attrs contents :: after)%list ->
  Forall (fun d => ~ anchor d) before ->
  Soup.find ["a"] (fun _ => true) listing = Some (Tag "a" cls attrs contents).
Proof.
  intros Hsplit Hbefore. unfold Soup.find, Soup.find_all. rewrite Hsplit.
  apply head_filter_first; [| done].
  eapply Forall_impl; [exact Hbefore |]. intros d Hd. cbn beta.
  apply not_anchor_named in Hd. unfold named in Hd. by rewrite Hd.
Qed.

Lemma find_no_anchor listing :
  (forall d, In d (Soup.descendants listing) -> ~ anchor d) ->
  Soup.find ["a"] (fun _ => true) listing = None.
Proof.
  intros Hnone. unfold Soup.find, Soup.find_all. rewrite filter_none; [done |].
  apply Forall_forall. intros d Hd. apply list_elem_of_In, Hnone in Hd.
  apply not_anchor_named in Hd. unfold named in Hd. by rewrite Hd.
Qed.

(** C6. In the record of a listing, the link comes from the first anchor
    below the listing in document order: when this anchor has an [href],
    the link is that value, unchanged when it starts with "http" and with
    the site origin "https://www.olx.in" in front otherwise; when there is
    no anchor below the listing, the link is the sentinel. *)
Theorem parse_listing_link listing r :
  parse_listing listing = Some r ->
  (forall before cls attrs contents after href,
      Soup.descendants listing =
        (before ++ Tag "a" cls attrs contents :: after)%list ->
      Forall (fun d => ~ anchor d) before ->
      attrs !! "href" = Some href ->
      r !! "link" =
      Some (if Str.startswith "http" href then href
            else "https://www.olx.in" +:+ href)) /\
  ((forall d, In d (Soup.descendants listing) -> ~ anchor d) ->
   r !! "link" = Some "N/A").
Proof.
  destruct listing as [s | s | name cls attrs contents]; [done | done |].
  rewrite parse_listing_tag. cbn zeta.
  set (listing := Tag name cls attrs contents).
  intros Hr. apply (inj Some) in Hr. subst r.
  pose proof (record_of_lookup
    (first_text listing title_selectors) (first_text listing price_selectors)
    (first_text listing loc_selectors) (first_text listing date_selectors)
    (extract_link listing) (extract_image listing))
    as (_ & _ & _ & _ & Hlink & _).
  rewrite Hlink. pose proof (extract_link_cases listing) as Hcases.
  split.
  - intros before acls aattrs acontents after href Hsplit Hbefore Hhref.
    rewrite (find_first_anchor _ _ _ _ _ _ Hsplit Hbefore) in Hcases.
    cbn [attrs_of] in Hcases. rewrite Hhref in Hcases. by rewrite Hcases.
  - intros Hnone. rewrite (find_no_anchor _ Hnone) in Hcases.
    by rewrite Hcases.
Qed.

(** The listing [relative_link], whose one anchor has the target
    "/item/123", gets the link "https://www.olx.in/item/123". *)
Lemma parse_listing_link_witness :
  parse_listing relative_link ≫= (.!! "link") =
  Some "https://www.olx.in/item/123".
Proof.
  destruct (parse_listing relative_link) as [r |] eqn:Hr;
    [| vm_compute in Hr; discriminate Hr].
  destruct (parse_listing_link relative_link r Hr) as [Hanchor _].
  exact (Hanchor [] None {[ "href" := "/item/123" ]} [] [] "/item/123"
                 eq_refl (List.Forall_nil _) eq_refl).
Defined.

(** An absolute link is left as it is. *)
Example absolute_link_kept :
  parse_listing
    (Tag "li" None ∅
       [ Tag "a" None {[ "href" := "https://www.olx.in/item/5" ]} [] ])
  ≫= (.!! "link") = Some "https://www.olx.in/item/5".
Proof. vm_compute. reflexivity. Qed.

(** The relative link of the sample listing is made absolute. *)
Example relative_link_rewritten :
  parse_listing relative_link ≫= (.!! "link") =
  Some "https://www.olx.in/item/123".
Proof. vm_compute. reflexivity. Qed.

(** ** The listings of a page *)

Lemma first_selection_none soup selectors :
  Forall (fun sel => Soup.select sel soup = []) selectors ->
  first_selection soup selectors = None.
Proof.
  induction 1 as [| sel rest Hsel _ IH]; cbn; [done |]. by rewrite Hsel.
Qed.

Lemma match_nil_id {A} (l : list A) :
  match l with [] => [] | _ => l end = l.
Proof. by destruct l. Qed.


(** Of the two containers of the sample page, the card is a listing and
    the banner is not. *)
Example generic_soup_listings :
  find_listings generic_soup (Some "<html></html>") = [card].
Proof. vm_compute. reflexivity. Qed.

(** ** The run over the pages *)

(** Every record is truthy, so the test of line 240 only drops the
    listings that [parse_listing] dropped. *)
Lemma parse_all_omap listings : parse_all listings = omap parse_listing listings.
Proof.
  unfold parse_all. induction listings as [| listing rest IH]; [done |].
  cbn. rewrite IH.
  destruct listing as [s | s | name cls attrs contents]; [done | done |].
  rewrite parse_listing_tag. cbn zeta.
  rewrite bool_decide_eq_false_2; [done | apply record_of_not_empty].
Qed.

Lemma scrape_loop_exit e max_pages current_page all_results s :
  ~ current_page <= max_pages ->
  scrape_loop e max_pages current_page all_results s = (all_results, s).
Proof.
  intros H. simp scrape_loop.
  destruct (decide (current_page <= max_pages)); [lia | reflexivity].
Qed.

(** One turn of the loop of [scrape_search_results] is one visit. *)
Lemma scrape_loop_enter e max_pages current_page all_results s :
  current_page <= max_pages ->
  scrape_loop e max_pages current_page all_results s =
  let '(here, s1) := visit_page e max_pages current_page s in
  scrape_loop e max_pages (current_page + 1) (all_results ++ here) s1.
Proof.
  intros H. rewrite scrape_loop_equation_1.
  destruct (decide (current_page <= max_pages)); [| lia].
  cbn [scrape_loop_unfold_clause_1].
  unfold visit_page, mbind, M_bind.
  destruct (fetch_page e (page_url current_page) 3 s) as [content s1].
  destruct content as [html |]; cbn [after_fetch extracted].
  - case_bool_decide as Hhtml.
    + subst html. cbn. rewrite app_nil_r. f_equal.
      apply state_eq; cbn; [lia | done | by rewrite app_nil_r].
    + rewrite <- parse_all_omap.
      unfold write_html, pace, emit, sleep, emit, uniform, mbind, M_bind,
        mret, M_ret; cbn.
      destruct (decide (current_page < max_pages)) as [Hlt | Hge].
      * rewrite (bool_decide_eq_true_2 (current_page + 1 <= max_pages)) by lia.
        rewrite (bool_decide_eq_true_2 (current_page < max_pages)) by lia.
        cbn. f_equal. rewrite <- app_assoc. f_equal. lia.
      * rewrite (bool_decide_eq_false_2 (current_page + 1 <= max_pages)) by lia.
        rewrite (bool_decide_eq_false_2 (current_page < max_pages)) by lia.
        cbn. f_equal. f_equal. lia.
  - cbn. rewrite app_nil_r. f_equal.
    apply state_eq; cbn; [lia | done | by rewrite app_nil_r].
Qed.

(** The loop of [scrape_search_results] visits the remaining pages in
    order and appends what they give. *)
Lemma scrape_loop_run_pages e max_pages (n : nat) :
  forall current_page all_results s,
    Z.to_nat (max_pages + 1 - current_page) = n ->
    scrape_loop e max_pages current_page all_results s =
    let '(out, s') :=
      run_pages e max_pages (seqZ current_page (Z.of_nat n)) s in
    ((all_results ++ out)%list, s').
Proof.
  induction n as [| n IH]; intros current_page all_results s Hn.
  - rewrite scrape_loop_exit by lia. rewrite seqZ_nil by lia.
    cbn. by rewrite app_nil_r.
  - rewrite scrape_loop_enter by lia.
    rewrite seqZ_cons by lia. cbn [run_pages]. unfold mbind, M_bind.
    destruct (visit_page e max_pages current_page s) as [here s1].
    rewrite IH by lia.
    replace (Z.pred (Z.of_nat (S n))) with (Z.of_nat n) by lia.
    replace (Z.succ current_page) with (current_page + 1) by lia.
    destruct (run_pages e max_pages (seqZ (current_page + 1) (Z.of_nat n)) s1)
      as [later s2].
    cbn. by rewrite app_assoc.
Qed.

Lemma scrape_search_results_run_pages e max_pages s :
  scrape_search_results e max_pages s =
  run_pages e max_pages (seqZ 1 max_pages) s.
Proof.
  unfold scrape_search_results.
  rewrite (scrape_loop_run_pages e max_pages (Z.to_nat max_pages)) by lia.
  destruct (decide (0 <= max_pages)) as [Hpos | Hneg].
  - rewrite Z2Nat.id by lia.
    by destruct (run_pages e max_pages (seqZ 1 max_pages) s).
  - replace (Z.to_nat max_pages) with 0%nat by lia.
    rewrite (seqZ_nil 1 max_pages) by lia. reflexivity.
Qed.

Lemma uniform_at_bounds e (a b : Q) n :
  (a <= b)%Q -> (0 <= random e n <= 1)%Q ->
  (a <= uniform_at e a b n <= b)%Q.
Proof.
  intros Hab [H0 H1]. unfold uniform_at.
  assert (Hlo : (0 <= (b - a) * random e n)%Q)
    by (apply Qmult_le_0_compat; [lra | exact H0]).
  assert (Hhi : ((b - a) * random e n <= (b - a) * 1)%Q).
  { rewrite !(Qmult_comm (b - a)). apply Qmult_le_compat_r; [exact H1 | lra]. }
  split; lra.
Qed.










(** In the sample world the first page gives one record and the second
    page, whose three attempts fail, gives none: the run returns the one
    record. *)
Example first_page_only_results :
  fst (scrape_search_results first_page_only 2 initial) =
  omap parse_listing [two_prices].
Proof. vm_compute. reflexivity. Qed.





(** After its first page, which is fetched, the sample run sleeps the
    pacing delay; after its second and last page it does not. *)
Example first_page_only_pacing :
  slept Pacing (events (snd (scrape_search_results first_page_only 2 initial)))
  = [uniform_at first_page_only 10 20 1].
Proof. vm_compute. reflexivity. Qed.

(** A page served with status 200 and an empty body counts as a failed
    page: nothing is saved and no pacing delay follows it. *)
Example empty_pages_no_pacing :
  events (snd (scrape_search_results empty_pages 2 initial)) =
  [ Sleep PreRequest (uniform_at empty_pages 2 5 0); Get (page_url 1);
    Sleep PreRequest (uniform_at empty_pages 2 5 1); Get (page_url 2) ].
Proof. vm_compute. reflexivity. Qed.


(** * Further properties *)

(** ** [fetch_page] *)

(** What the result of the loop says about the outcomes of its requests:
    a page is the body of a good response that came after failures only;
    nothing means that all the attempts left were made and failed. *)
Lemma attempts_outcomes e url max_retries retries d q ev res :
  attempts e url max_retries retries d q ev res ->
  match res with
  | Some text =>
      exists k : nat,
        length (requested ev) = S k /\
        retries + Z.of_nat k < max_retries /\
        session_get e (q + k) url = Response 200 text /\
        blocked text = false /\
        forall j : nat, (j < k)%nat -> failed (session_get e (q + j) url)
  | None =>
      length (requested ev) = Z.to_nat (max_retries - retries) /\
      forall j : nat, (j < Z.to_nat (max_retries - retries))%nat ->
                      failed (session_get e (q + j) url)
  end.
Proof.
  assert (Hshift : forall (P : nat -> Prop) (n : nat),
             P O -> (forall j, (j < n)%nat -> P (S j)) ->
             forall j, (j < S n)%nat -> P j).
  { intros P n H0 HS [| j] Hj; [done | apply HS; lia]. }
  induction 1 as
    [ retries d q Hge
    | retries d q status_code text ev res Hlt Hget Hb _ IH
    | retries d q status_code text ev res Hlt Hget Hb Hst _ IH
    | retries d q text Hlt Hget Hb
    | retries d q ev res Hlt Hget Hnext _ IH
    | retries d q Hlt Hget Hlast ].
  - split; [cbn; lia |]. intros j Hj. lia.
  - assert (Hfail : failed (session_get e (q + 0) url))
      by (rewrite Nat.add_0_r, Hget; by left).
    destruct res as [text' |].
    + destruct IH as (k & Hlen & Hk & Hgood & Hnb & Hprev).
      exists (S k). cbn [requested length]. rewrite Hlen.
      split; [done |]. split; [lia |].
      split; [by rewrite <- Nat.add_succ_comm |]. split; [done |].
      apply Hshift; [done |]. intros j Hj.
      rewrite <- Nat.add_succ_comm. by apply Hprev.
    + destruct IH as (Hlen & Hprev). cbn [requested length]. rewrite Hlen.
      split; [lia |].
      replace (Z.to_nat (max_retries - retries))
        with (S (Z.to_nat (max_retries - (retries + 1)))) by lia.
      apply Hshift; [done |]. intros j Hj.
      rewrite <- Nat.add_succ_comm. by apply Hprev.
  - assert (Hfail : failed (session_get e (q + 0) url))
      by (rewrite Nat.add_0_r, Hget; by right).
    destruct res as [text' |].
    + destruct IH as (k & Hlen & Hk & Hgood & Hnb & Hprev).
      exists (S k). cbn [requested length]. rewrite Hlen.
      split; [done |]. split; [lia |].
      split; [by rewrite <- Nat.add_succ_comm |]. split; [done |].
      apply Hshift; [done |]. intros j Hj.
      rewrite <- Nat.add_succ_comm. by apply Hprev.
    + destruct IH as (Hlen & Hprev). cbn [requested length]. rewrite Hlen.
      split; [lia |].
      replace (Z.to_nat (max_retries - retries))
        with (S (Z.to_nat (max_retries - (retries + 1)))) by lia.
      apply Hshift; [done |]. intros j Hj.
      rewrite <- Nat.add_succ_comm. by apply Hprev.
  - exists O. cbn. split; [done |]. split; [lia |].
    rewrite Nat.add_0_r. split; [done |]. split; [done |]. intros j Hj. lia.
  - assert (Hfail : failed (session_get e (q + 0) url))
      by (rewrite Nat.add_0_r, Hget; done).
    destruct res as [text' |].
    + destruct IH as (k & Hlen & Hk & Hgood & Hnb & Hprev).
      exists (S k). cbn [requested length]. rewrite Hlen.
      split; [done |]. split; [lia |].
      split; [by rewrite <- Nat.add_succ_comm |]. split; [done |].
      apply Hshift; [done |]. intros j Hj.
      rewrite <- Nat.add_succ_comm. by apply Hprev.
    + destruct IH as (Hlen & Hprev). cbn [requested length]. rewrite Hlen.
      split; [lia |].
      replace (Z.to_nat (max_retries - retries))
        with (S (Z.to_nat (max_retries - (retries + 1)))) by lia.
      apply Hshift; [done |]. intros j Hj.
      rewrite <- Nat.add_succ_comm. by apply Hprev.
  - cbn [requested length].
    replace (Z.to_nat (max_retries - retries)) with 1%nat by lia.
    split; [done |]. intros j Hj. replace j with O by lia.
    rewrite Nat.add_0_r, Hget. done.
Qed.

(** X1. A page that [fetch_page] returns is the body of the first
    response of the call that has status 200 and is no challenge page:
    it came at an attempt within the bound, and every request before it
    raised, was answered by a challenge page or had another status. *)
Theorem fetch_page_returns_first_good_response e url max_retries s text s' :
  fetch_page e url max_retries s = (Some text, s') ->
  exists k : nat,
    Z.of_nat k < max_retries /\
    requests s' = (requests s + S k)%nat /\
    session_get e (requests s + k) url = Response 200 text /\
    blocked text = false /\
    forall j : nat, (j < k)%nat -> failed (session_get e (requests s + j) url).
Proof.
  intros Hfetch.
  destruct (fetch_page_attempts e url max_retries s) as (ev & res & Hrun & Heq).
  rewrite Heq in Hfetch. injection Hfetch as -> <-.
  apply attempts_outcomes in Hrun as (k & Hlen & Hk & Hgood & Hnb & Hprev).
  exists k. cbn [advance requests]. rewrite Hlen.
  split; [lia |]. by repeat split.
Qed.

Lemma fetch_page_returns_first_good_response_witness :
  exists k : nat,
    Z.of_nat k < 3 /\
    requests (snd (fetch_page second_try base_url 3 initial)) =
      (requests initial + S k)%nat /\
    session_get second_try (requests initial + k) base_url =
      Response 200 "<li class=EIR5N>...</li>" /\
    blocked "<li class=EIR5N>...</li>" = false /\
    forall j : nat, (j < k)%nat ->
      failed (session_get second_try (requests initial + j) base_url).
Proof.
  apply (fetch_page_returns_first_good_response second_try base_url 3 initial).
  vm_compute. reflexivity.
Defined.

(** X2. [fetch_page] returns nothing exactly when the outcomes of the
    first [max_retries] requests it can make all fail; it has then made
    exactly [max_retries] requests (none when the bound is not
    positive). *)
Theorem fetch_page_gives_up_iff_all_fail e url max_retries s :
  (fst (fetch_page e url max_retries s) = None <->
   forall j : nat, (j < Z.to_nat max_retries)%nat ->
                   failed (session_get e (requests s + j) url)) /\
  (fst (fetch_page e url max_retries s) = None ->
   requests (snd (fetch_page e url max_retries s)) =
   (requests s + Z.to_nat max_retries)%nat).
Proof.
  destruct (fetch_page_attempts e url max_retries s) as (ev & res & Hrun & Heq).
  rewrite Heq. cbn [fst snd]. apply attempts_outcomes in Hrun.
  destruct res as [text |].
  - destruct Hrun as (k & Hlen & Hk & Hgood & Hnb & Hprev).
    split; [| done]. split; [done |]. intros Hall.
    specialize (Hall k ltac:(lia)). rewrite Hgood in Hall.
    destruct Hall as [Hb | Hst]; [congruence | done].
  - destruct Hrun as (Hlen & Hall).
    replace (max_retries - 0) with max_retries in * by lia.
    split; [by split |]. intros _. cbn [advance requests]. by rewrite Hlen.
Qed.

Lemma inject_Z_le (a b : Z) : a <= b -> (inject_Z a <= inject_Z b)%Q.
Proof. intros H. unfold Qle; cbn. lia. Qed.

(** Each attempt sleeps at most 5 seconds before the request and at most
    [30 * max_retries] seconds after it. *)
Lemma attempts_total_sleep e url max_retries retries d q ev res :
  unit_interval e ->
  0 <= retries ->
  attempts e url max_retries retries d q ev res ->
  (total_sleep ev <=
   inject_Z (Z.of_nat (length (requested ev)) * (5 + 30 * max_retries)))%Q.
Proof.
  intros Hunit Hr Hrun.
  assert (Hwait : forall n, (uniform_at e 2 5 n <= 5)%Q).
  { intros n. apply uniform_at_bounds; [lra | apply Hunit]. }
  assert (Hstep : forall (w c t : Q) (n : nat) (limit : Z),
             (w <= 5)%Q -> (c <= inject_Z limit)%Q ->
             limit <= 30 * max_retries ->
             (t <= inject_Z (Z.of_nat n * (5 + 30 * max_retries)))%Q ->
             (w + (c + t) <=
              inject_Z (Z.of_nat (S n) * (5 + 30 * max_retries)))%Q).
  { intros w c t n limit Hw Hc Hlimit Ht.
    assert (Hsum : (5 + (inject_Z limit +
                         inject_Z (Z.of_nat n * (5 + 30 * max_retries))) <=
                    inject_Z (Z.of_nat (S n) * (5 + 30 * max_retries)))%Q).
    { unfold Qle, Qplus, inject_Z; cbn. lia. }
    lra. }
  induction Hrun as
    [ retries d q Hge
    | retries d q status_code text ev res Hlt Hget Hb _ IH
    | retries d q status_code text ev res Hlt Hget Hb Hst _ IH
    | retries d q text Hlt Hget Hb
    | retries d q ev res Hlt Hget Hnext _ IH
    | retries d q Hlt Hget Hlast ];
    cbn [total_sleep requested length].
  - unfold Qle; cbn. lia.
  - apply (Hstep _ _ _ _ retry_delay); [apply Hwait | lra | | apply IH; lia].
    unfold retry_delay. lia.
  - apply (Hstep _ _ _ _ retry_delay); [apply Hwait | lra | | apply IH; lia].
    unfold retry_delay. lia.
  - specialize (Hwait d).
    assert (Hone : (5 <= inject_Z (Z.of_nat 1 * (5 + 30 * max_retries)))%Q)
      by (unfold Qle; cbn; lia).
    lra.
  - apply (Hstep _ _ _ _ (retry_delay * (retries + 1)));
      [apply Hwait | lra | | apply IH; lia].
    unfold retry_delay. lia.
  - specialize (Hwait d).
    assert (Hone : (5 <= inject_Z (Z.of_nat 1 * (5 + 30 * max_retries)))%Q)
      by (unfold Qle; cbn; lia).
    lra.
Qed.

(** X3. One call of [fetch_page] never sleeps for more than
    [max_retries * (5 + 30 * max_retries)] seconds in all, whatever the
    network does, when the random numbers lie between 0 and 1. *)
Theorem fetch_page_sleep_bounded e url max_retries s :
  unit_interval e ->
  exists ev res,
    fetch_page e url max_retries s = (res, advance s ev) /\
    (total_sleep ev <=
     inject_Z (Z.max 0 max_retries * (5 + 30 * max_retries)))%Q.
Proof.
  intros Hunit.
  destruct (fetch_page_attempts e url max_retries s) as (ev & res & Hrun & Heq).
  exists ev, res. split; [exact Heq |].
  pose proof (attempts_total_sleep _ _ _ _ _ _ _ _ Hunit (Z.le_refl 0) Hrun)
    as Hsleep.
  pose proof (attempts_bounded _ _ _ _ _ _ _ _ Hrun) as Hlen.
  eapply Qle_trans; [exact Hsleep |]. apply inject_Z_le.
  destruct (decide (0 <= max_retries)); [nia |].
  replace (length (requested ev)) with O by lia. lia.
Qed.

Lemma fetch_page_sleep_bounded_witness :
  exists ev res,
    fetch_page second_try base_url 3 initial = (res, advance initial ev) /\
    (total_sleep ev <= inject_Z (Z.max 0 3 * (5 + 30 * 3)))%Q.
Proof.
  apply (fetch_page_sleep_bounded second_try base_url 3 initial).
  intros n. cbn. split; discriminate.
Defined.

(** ** [parse_listing] *)

(** X4. Only the first anchor below a listing is looked at: when it has
    no [href], the link of the record is the sentinel, whatever the
    anchors after it have. *)
Theorem parse_listing_first_anchor_only name cls attrs contents anchor :
  let listing := Tag name cls attrs contents in
  Soup.find ["a"] (fun _ => true) listing = Some anchor ->
  attrs_of anchor !! "href" = None ->
  exists r, parse_listing listing = Some r /\ r !! "link" = Some "N/A".
Proof.
  intros listing Hfind Hhref.
  eexists. split; [apply parse_listing_tag |]. cbn zeta. fold listing.
  pose proof (record_of_lookup
    (first_text listing title_selectors) (first_text listing price_selectors)
    (first_text listing loc_selectors) (first_text listing date_selectors)
    (extract_link listing) (extract_image listing))
    as (_ & _ & _ & _ & Hlink & _).
  rewrite Hlink. pose proof (extract_link_cases listing) as Hcases.
  rewrite Hfind, Hhref in Hcases. by rewrite Hcases.
Qed.

Lemma parse_listing_first_anchor_only_witness :
  exists r,
    parse_listing anchor_without_target = Some r /\ r !! "link" = Some "N/A".
Proof.
  apply (parse_listing_first_anchor_only "li" None ∅
           [ Tag "a" None {[ "name" := "top" ]} [];
             Tag "a" None {[ "href" := "/item/9" ]} [] ]
           (Tag "a" None {[ "name" := "top" ]} [])); reflexivity.
Defined.

(** X5. The image of a record comes from the first image below the
    listing only, and from the first of its attributes [src], [data-src],
    [srcset] that is there: [src] hides [data-src], which hides [srcset];
    an image with none of the three gives the sentinel. *)
Theorem parse_listing_image_priority name cls attrs contents img :
  let listing := Tag name cls attrs contents in
  Soup.find ["img"] (fun _ => true) listing = Some img ->
  exists r,
    parse_listing listing = Some r /\
    r !! "image_url" =
    Some (match attrs_of img !! "src" with
          | Some value => value
          | None =>
              match attrs_of img !! "data-src" with
              | Some value => value
              | None => default "N/A" (attrs_of img !! "srcset")
              end
          end).
Proof.
  intros listing Hfind.
  eexists. split; [apply parse_listing_tag |]. cbn zeta. fold listing.
  pose proof (record_of_lookup
    (first_text listing title_selectors) (first_text listing price_selectors)
    (first_text listing loc_selectors) (first_text listing date_selectors)
    (extract_link listing) (extract_image listing))
    as (_ & _ & _ & _ & _ & Himage).
  rewrite Himage. f_equal. unfold extract_image. rewrite Hfind.
  destruct (find_is_tag _ _ _ _ Hfind) as (n & c & a & cs & ->). cbn.
  destruct (a !! "src"); [done |]. destruct (a !! "data-src"); [done |].
  by destruct (a !! "srcset").
Qed.

Lemma parse_listing_image_priority_witness :
  exists r,
    parse_listing lazy_image = Some r /\
    r !! "image_url" = Some "placeholder.gif".
Proof.
  destruct (parse_listing_image_priority "li" None ∅
           [ Tag "img" None {[ "src" := "placeholder.gif";
                               "data-src" := "https://img.olx.in/9.jpg" ]} [] ]
           (Tag "img" None {[ "src" := "placeholder.gif";
                              "data-src" := "https://img.olx.in/9.jpg" ]} []))
    as (r & Hr & Himage); [reflexivity |].
  exists r. split; [exact Hr |]. rewrite Himage. reflexivity.
Defined.

(** X6. [parse_listing] reads what is below the listing element and
    nothing of the element itself: two elements with the same contents
    give the same record, whatever their names, classes and attributes. In
    particular an [href] on the listing element is not its link. *)
Theorem parse_listing_ignores_own_attributes
    name cls attrs name' cls' attrs' contents :
  parse_listing (Tag name cls attrs contents) =
  parse_listing (Tag name' cls' attrs' contents).
Proof. reflexivity. Qed.

(** ** [find_listings] *)

Lemma first_selection_first_match soup before sel after :
  Forall (fun sel' => Soup.select sel' soup = []) before ->
  Soup.select sel soup <> [] ->
  first_selection soup (before ++ sel :: after) = Some (Soup.select sel soup).
Proof.
  induction 1 as [| sel' rest Hsel' _ IH]; intros Hsel; cbn.
  - by destruct (Soup.select sel soup).
  - rewrite Hsel'. by apply IH.
Qed.

(** X7. The known selectors are tried in order and the first one that
    matches something decides alone: the listings are all the elements it
    matches, the later selectors and the general approach play no part. *)
Theorem find_listings_first_selector_wins
    (parser : string -> node) html before sel after :
  html <> "" ->
  listing_selectors = (before ++ sel :: after)%list ->
  Forall (fun sel' => Soup.select sel' (parser html) = []) before ->
  Soup.select sel (parser html) <> [] ->
  find_listings parser (Some html) = Soup.select sel (parser html) /\
  Forall (fun listing => Soup.matches sel listing = true)
         (find_listings parser (Some html)).
Proof.
  intros Hhtml Hsplit Hbefore Hsel.
  assert (Heq : find_listings parser (Some html) = Soup.select sel (parser html)).
  { unfold find_listings. rewrite bool_decide_eq_false_2 by done.
    rewrite Hsplit. by rewrite first_selection_first_match. }
  split; [exact Heq |]. rewrite Heq.
  apply Forall_forall. intros listing Hin.
  apply list_elem_of_In, filter_In in Hin. tauto.
Qed.

Lemma find_listings_first_selector_wins_witness :
  find_listings one_listing_soup (Some "<html></html>") =
  Soup.select (TagClass "li" "EIR5N") (one_listing_soup "<html></html>").
Proof.
  apply (find_listings_first_selector_wins one_listing_soup "<html></html>"
           [] (TagClass "li" "EIR5N")
           [ TagAttr "li" "data-aut-id" "itemBox";
             TagAttr "div" "data-aut-id" "itemCard"; TagClass "div" "IKo3_";
             TagClass "li" "listing" ]).
  - discriminate.
  - reflexivity.
  - constructor.
  - discriminate.
Defined.

Lemma first_selection_tags soup selectors listings :
  first_selection soup selectors = Some listings ->
  Forall (fun n => is_tag n = true) listings.
Proof.
  induction selectors as [| sel rest IH]; cbn; [done |].
  destruct (Soup.select sel soup) as [| x l] eqn:Hsel; [exact IH |].
  intros [= <-]. rewrite <- Hsel. apply Forall_forall. intros n Hin.
  apply list_elem_of_In, filter_In in Hin as [_ Hm]. by destruct n.
Qed.

Lemma find_listings_tags (parser : string -> node) html_content :
  Forall (fun n => is_tag n = true) (find_listings parser html_content).
Proof.
  unfold find_listings. destruct html_content as [html |]; [| constructor].
  case_bool_decide; [constructor |].
  destruct (first_selection (parser html) listing_selectors) as [listings |]
    eqn:Hfirst; [by eapply first_selection_tags |].
  rewrite match_nil_id. apply Forall_forall. intros n Hin.
  apply list_elem_of_In, filter_In in Hin as [Hin _].
  apply filter_In in Hin as [_ Hn]. by destruct n.
Qed.

Lemma omap_parse_listing_tags listings :
  Forall (fun n => is_tag n = true) listings ->
  length (omap parse_listing listings) = length listings.
Proof.
  induction 1 as [| n rest Hn _ IH]; [done |].
  destruct n as [| | name cls attrs contents]; [done | done |].
  cbn. by rewrite IH.
Qed.

(** X8. [find_listings] returns elements only, never a piece of text, so
    that [parse_listing] drops none of them: a page gives exactly as
    many records as listings were found in it. *)
Theorem one_record_per_listing (e : env) html_content :
  Forall (fun n => is_tag n = true)
         (find_listings (BeautifulSoup e) html_content) /\
  length (parse_all (find_listings (BeautifulSoup e) html_content)) =
  length (find_listings (BeautifulSoup e) html_content).
Proof.
  split; [apply find_listings_tags |].
  rewrite parse_all_omap. apply omap_parse_listing_tags, find_listings_tags.
Qed.

(** Induction on nodes, with the property for all the contents of a
    tag. *)
Lemma node_induction (P : node -> Prop) :
  (forall s, P (NavigableString s)) ->
  (forall s, P (Comment s)) ->
  (forall name cls attrs contents,
      Forall P contents -> P (Tag name cls attrs contents)) ->
  forall n, P n.
Proof.
  intros Htext Hcomment Htag.
  refine (fix IH (n : node) : P n :=
            match n with
            | NavigableString s => Htext s
            | Comment s => Hcomment s
            | Tag name cls attrs contents =>
                Htag name cls attrs contents
                     ((fix go (l : list node) : Forall P l :=
                         match l with
                         | [] => @List.Forall_nil _ P
                         | c :: l' => @List.Forall_cons _ P c l' (IH c) (go l')
                         end) contents)
            end).
Qed.

Lemma in_descendants d name cls attrs contents :
  In d (Soup.descendants (Tag name cls attrs contents)) <->
  exists c, In c contents /\ (d = c \/ In d (Soup.descendants c)).
Proof.
  cbn [Soup.descendants]. rewrite in_flat_map.
  split; intros (c & Hc & Hd); exists c; (split; [done |]);
    cbn in *; intuition congruence.
Qed.

(** What is below a node that is below [outer] is below [outer]. *)
Lemma descendants_trans outer :
  forall inner d,
    In inner (Soup.descendants outer) ->
    In d (Soup.descendants inner) ->
    In d (Soup.descendants outer).
Proof.
  induction outer as [s | s | name cls attrs contents IH] using node_induction;
    intros inner d Hinner Hd; [done | done |].
  apply in_descendants in Hinner as (c & Hc & Hinner).
  apply in_descendants. exists c. split; [done |]. right.
  destruct Hinner as [-> | Hinner]; [done |].
  rewrite Forall_forall in IH.
  eapply (IH c); [by apply list_elem_of_In | exact Hinner | exact Hd].
Qed.

Lemma head_filter_is_Some {A} (f : A -> bool) (l : list A) :
  is_Some (head (List.filter f l)) <-> exists x, In x l /\ f x = true.
Proof.
  split.
  - intros [x Hx]. apply head_filter_named in Hx as [Hf Hin].
    exists x. split; [by apply list_elem_of_In | done].
  - intros (x & Hin & Hf).
    assert (Hx : In x (List.filter f l)) by (apply filter_In; by split).
    destruct (List.filter f l); [done | by eexists].
Qed.

Lemma has_heading_below item :
  has_heading item = true <->
  exists d, In d (Soup.descendants item) /\
            Soup.tag_in ["h2"; "h3"; "strong"; "span"] d && Soup.has_class d
            = true.
Proof.
  unfold has_heading, Soup.find, Soup.find_all.
  rewrite bool_decide_eq_true. apply head_filter_is_Some.
Qed.

Lemma has_link_below item :
  has_link item = true <->
  exists d, In d (Soup.descendants item) /\
            Soup.tag_in ["a"] d && Soup.has_attr "href" d = true.
Proof.
  unfold has_link, Soup.find, Soup.find_all.
  rewrite bool_decide_eq_true. apply head_filter_is_Some.
Qed.

Lemma rupee_test t :
  (if bool_decide (t = "") then false else Str.contains rupee t) =
  Str.contains rupee t.
Proof. case_bool_decide; [by subst |]. done. Qed.

Lemma rupee_nonempty t : Str.contains rupee t = true -> t <> "".
Proof. by intros H ->. Qed.

Lemma has_price_below item :
  has_price item = true <->
  exists d, In d (Soup.descendants item) /\ rupee_string d = true.
Proof.
  unfold has_price, Soup.find_text.
  induction (Soup.descendants item) as [| d l IH]; cbn [omap list_omap head].
  - split; [done | by intros (d & [] & _)].
  - assert (Hskip :
      rupee_string d = false ->
      (match head (omap (fun d0 => match d0 with
                           | NavigableString s | Comment s =>
                               if (if bool_decide (s = "") then false
                                   else Str.contains rupee s)
                               then Some s else None
                           | Tag _ _ _ _ => None
                           end) l) with
       | Some t => negb (bool_decide (t = ""))
       | None => false
       end = true <->
       exists d0, In d0 (d :: l) /\ rupee_string d0 = true)).
    { intros Hd. rewrite IH. split; intros (d0 & Hin & Hr); exists d0.
      - split; [by right | done].
      - destruct Hin as [<- | Hin]; [congruence | done]. }
    destruct d as [s | s | name cls attrs contents]; [| | by apply Hskip].
    + rewrite rupee_test. destruct (Str.contains rupee s) eqn:Hc;
        [| by apply Hskip].
      cbn. rewrite bool_decide_eq_false_2 by (by apply rupee_nonempty).
      split; [| done]. intros _. exists (NavigableString s).
      split; [by left | done].
    + rewrite rupee_test. destruct (Str.contains rupee s) eqn:Hc;
        [| by apply Hskip].
      cbn. rewrite bool_decide_eq_false_2 by (by apply rupee_nonempty).
      split; [| done]. intros _. exists (Comment s).
      split; [by left | done].
Qed.

(** A container that holds something that looks like a listing looks
    like a listing. *)
Lemma looks_like_listing_above outer inner :
  In inner (Soup.descendants outer) ->
  looks_like_listing inner = true ->
  looks_like_listing outer = true.
Proof.
  intros Hin. unfold looks_like_listing.
  rewrite !andb_true_iff, !orb_true_iff,
    !has_heading_below, !has_price_below, !has_link_below.
  intros [(d & Hd & Hh) [(t & Ht & Hp) | (a & Ha & Hl)]]; (split; [| clear d Hd Hh]).
  - exists d. split; [by eapply descendants_trans | done].
  - left. exists t. split; [by eapply descendants_trans | done].
  - exists d. split; [by eapply descendants_trans | done].
  - right. exists a. split; [by eapply descendants_trans | done].
Qed.

Lemma find_listings_fallback (parser : string -> node) html :
  html <> "" ->
  Forall (fun sel => Soup.select sel (parser html) = []) listing_selectors ->
  find_listings parser (Some html) =
  List.filter looks_like_listing
    (Soup.find_all ["div"; "li"] Soup.has_class (parser html)).
Proof.
  intros Hhtml Hnone. unfold find_listings.
  rewrite bool_decide_eq_false_2 by done.
  rewrite first_selection_none by done. apply match_nil_id.
Qed.










(** X9. The general approach reports a listing together with everything
    around it: when it returns an element, it also returns every [div]
    and [li] with a [class] attribute that contains that element. *)
Theorem general_approach_returns_ancestors
    (parser : string -> node) html outer inner :
  html <> "" ->
  Forall (fun sel => Soup.select sel (parser html) = []) listing_selectors ->
  In outer (Soup.find_all ["div"; "li"] Soup.has_class (parser html)) ->
  In inner (Soup.descendants outer) ->
  In inner (find_listings parser (Some html)) ->
  In outer (find_listings parser (Some html)).
Proof.
  intros Hhtml Hnone Houter Hbelow.
  rewrite find_listings_fallback by done.
  rewrite !filter_In. intros [_ Hinner]. split; [done |].
  by eapply looks_like_listing_above.
Qed.

Lemma general_approach_returns_ancestors_witness :
  In (Tag "div" (Some ["results"]) ∅ [card])
     (find_listings nested_soup (Some "<html></html>")).
Proof.
  apply (general_approach_returns_ancestors nested_soup "<html></html>"
           (Tag "div" (Some ["results"]) ∅ [card]) card).
  - discriminate.
  - repeat constructor.
  - vm_compute. left. reflexivity.
  - vm_compute. left. reflexivity.
  - vm_compute. right. left. reflexivity.
Defined.

(** ** [scrape_search_results] *)

(** X10. Asked for no page, or for a negative number of pages,
    [scrape_search_results] returns no record at once: the state is the
    one it was called in, so nothing was requested, slept or saved. *)
Theorem scrape_search_results_no_pages e max_pages s :
  max_pages <= 0 ->
  scrape_search_results e max_pages s = ([], s).
Proof.
  intros H. unfold scrape_search_results. apply scrape_loop_exit. lia.
Qed.

Lemma scrape_search_results_no_pages_witness :
  scrape_search_results first_page_only 0 initial = ([], initial).
Proof. apply scrape_search_results_no_pages. lia. Defined.

Lemma requested_app ev ev' :
  requested (ev ++ ev') = (requested ev ++ requested ev')%list.
Proof.
  induction ev as [| x ev IH]; [done |].
  destruct x; cbn; by rewrite ?IH.
Qed.

Lemma saved_app ev ev' : saved (ev ++ ev') = (saved ev ++ saved ev')%list.
Proof.
  induction ev as [| x ev IH]; [done |].
  destruct x; cbn; by rewrite ?IH.
Qed.

Lemma attempts_requested e url max_retries retries d q ev res :
  attempts e url max_retries retries d q ev res ->
  requested ev = replicate (length (requested ev)) url /\ saved ev = [].
Proof.
  induction 1 as
    [ | ? ? ? ? ? ? ? ? ? ? ? [IH1 IH2] | ? ? ? ? ? ? ? ? ? ? ? ? [IH1 IH2]
      | | ? ? ? ? ? ? ? ? ? [IH1 IH2] | ]; cbn; try done;
    (split; [by rewrite <- IH1 | done]).
Qed.

Lemma after_fetch_requested e max_pages p d content :
  requested (after_fetch e max_pages p d content) = [].
Proof.
  destruct content as [html |]; cbn; [| done].
  case_bool_decide; [done |]. cbn. by case_bool_decide.
Qed.

(** One visit, in full: the attempts of its fetch, what follows them, the
    records and the state. *)
Lemma visit_page_attempts e max_pages p s :
  exists ev res,
    attempts e (page_url p) 3 0 (draws s) (requests s) ev res /\
    fst (visit_page e max_pages p s) = extracted e res /\
    events (snd (visit_page e max_pages p s)) =
      (events s ++ ev ++
       after_fetch e max_pages p (draws s + length (requested ev)) res)%list /\
    requests (snd (visit_page e max_pages p s)) =
      (requests s + length (requested ev))%nat.
Proof.
  destruct (fetch_page_attempts e (page_url p) 3 s) as (ev & res & Hrun & Heq).
  exists ev, res. split; [exact Hrun |].
  unfold visit_page. rewrite Heq. cbn. by rewrite <- app_assoc.
Qed.

Lemma run_pages_cons e max_pages p rest s :
  run_pages e max_pages (p :: rest) s =
  (fst (visit_page e max_pages p s) ++
   fst (run_pages e max_pages rest (snd (visit_page e max_pages p s))),
   snd (run_pages e max_pages rest (snd (visit_page e max_pages p s))))%list.
Proof.
  cbn [run_pages]. unfold mbind, M_bind, mret, M_ret.
  destruct (visit_page e max_pages p s) as [here s1]. cbn [fst snd].
  by destruct (run_pages e max_pages rest s1).
Qed.




Lemma after_fetch_saved e max_pages p d content :
  saved (after_fetch e max_pages p d content) =
  match content with
  | Some html => if bool_decide (html = "") then [] else [(p, html)]
  | None => []
  end.
Proof.
  destruct content as [html |]; cbn; [| done].
  case_bool_decide; [done |]. cbn. by case_bool_decide.
Qed.

Lemma run_pages_saved e max_pages pages :
  forall s,
  exists ev,
    events (snd (run_pages e max_pages pages s)) = (events s ++ ev)%list /\
    requests (snd (run_pages e max_pages pages s)) =
      (requests s + length (requested ev))%nat /\
    (saved ev).*1 `sublist_of` pages /\
    Forall (served_in e (requests s) ev) (saved ev).
Proof.
  induction pages as [| p rest IH]; intros s.
  - exists []. cbn. rewrite app_nil_r.
    split; [done |]. split; [lia |]. split; constructor.
  - rewrite run_pages_cons. cbn [snd].
    destruct (visit_page_attempts e max_pages p s)
      as (ev & res & Hrun & _ & Hev & Hreq).
    destruct (IH (snd (visit_page e max_pages p s)))
      as (ev' & Hev' & Hreq' & Hsub & Hserved).
    pose proof (attempts_requested _ _ _ _ _ _ _ _ Hrun) as [Hrep Hnone].
    remember (after_fetch e max_pages p
                (draws s + length (requested ev)) res) as tail eqn:Hdef in *.
    assert (Htail : requested (ev ++ tail) = requested ev).
    { by rewrite requested_app, Hdef, after_fetch_requested, app_nil_r. }
    assert (Hsaved : saved tail =
                     match res with
                     | Some html =>
                         if bool_decide (html = "") then [] else [(p, html)]
                     | None => []
                     end)
      by (rewrite Hdef; apply after_fetch_saved).
    exists ((ev ++ tail) ++ ev')%list.
    split; [by rewrite Hev', Hev, <- !app_assoc |].
    split.
    { rewrite Hreq', Hreq, requested_app, length_app, Htail. lia. }
    assert (Hlater : Forall (served_in e (requests s) ((ev ++ tail) ++ ev'))
                            (saved ev')).
    { eapply Forall_impl; [exact Hserved |]. intros entry Hentry.
      rewrite Hreq in Hentry.
      destruct Hentry as (Hne & Hnb & k & Hk & Hget).
      split; [done |]. split; [done |].
      exists (length (requested ev) + k)%nat. split.
      - rewrite requested_app. rewrite Htail. rewrite lookup_app_r by lia.
        by replace (length (requested ev) + k - length (requested ev))%nat
          with k by lia.
      - by rewrite Nat.add_assoc. }
    rewrite !saved_app, Hnone. cbn [app].
    rewrite Hsaved. clear Hdef Hsaved.
    destruct res as [html |]; [| split; [by constructor | done]].
    case_bool_decide as Hhtml; [split; [by constructor | done] |].
    cbn. split; [by constructor |]. constructor; [| done].
    apply attempts_outcomes in Hrun as (k & Hlen & _ & Hgood & Hnb & _).
    split; [done |]. split; [done |]. exists k. split; [| done].
    cbn [fst]. rewrite requested_app, Htail, lookup_app_l by lia.
    rewrite Hrep, Hlen. apply lookup_replicate_2. lia.
Qed.

(** X12. Every page that a run saves for debugging is the body of the
    response, with status 200, that one of the requests of this run got
    for the URL of that page; it is never empty and never a challenge
    page; at most one page is saved per page index, in the order of the
    indices 1, ..., [max_pages]. *)
Theorem scrape_search_results_saved_pages e max_pages s :
  exists ev,
    events (snd (scrape_search_results e max_pages s)) = (events s ++ ev)%list /\
    requests (snd (scrape_search_results e max_pages s)) =
      (requests s + length (requested ev))%nat /\
    (saved ev).*1 `sublist_of` seqZ 1 max_pages /\
    Forall (served_in e (requests s) ev) (saved ev).
Proof.
  rewrite scrape_search_results_run_pages. apply run_pages_saved.
Qed.

(** In the sample world the one saved page is the answer to the first
    request. *)
Example first_page_only_saved :
  saved (events (snd (scrape_search_results first_page_only 2 initial))) =
  [(1, "<li class=EIR5N>...</li>")].
Proof. vm_compute. reflexivity. Qed.






(** ** Page URLs *)

Lemma of_Z_inj (a b : Z) : Str.of_Z a = Str.of_Z b -> a = b.
Proof.
  assert (Hparse : forall z, NilZero.int_of_string (Str.of_Z z) =
                             Some (Z.to_int z)).
  { intros z. apply NilZero.isi; destruct z; cbn; try discriminate;
      intros [= H]; by apply DecimalPos.Unsigned.to_uint_nonnil in H. }
  intros H. apply DecimalZ.to_int_inj.
  pose proof (Hparse a) as Ha. rewrite H, Hparse in Ha. congruence.
Qed.

Lemma string_app_inv_head (s a b : string) : s +:+ a = s +:+ b -> a = b.
Proof. induction s as [| c s IH]; cbn; [done |]. intros [= H]. by apply IH. Qed.

Lemma string_app_empty_r (s : string) : s +:+ "" = s.
Proof.
  induction s as [| c s IH]; [done |].
  change (String c (s +:+ "") = String c s). by rewrite IH.
Qed.

(** X14. Page indices and page URLs correspond one to one: two URLs
    built by [page_url] are equal only for equal indices, so no two pages
    of a run are fetched from the same address. *)
Theorem page_url_inj (p q : Z) : page_url p = page_url q -> p = q.
Proof.
  unfold page_url.
  assert (Hbase : forall z, base_url <> base_url +:+ "?page=" +:+ Str.of_Z z).
  { intros z H. rewrite <- (string_app_empty_r base_url) in H at 1.
    by apply string_app_inv_head in H. }
  repeat case_bool_decide; subst; try done; intros Heq;
    first [ by apply Hbase in Heq
          | by (symmetry in Heq; apply Hbase in Heq)
          | do 2 apply string_app_inv_head in Heq; by apply of_Z_inj ].
Qed.

Lemma page_url_inj_witness : (2 : Z) = 2.
Proof. apply page_url_inj. reflexivity. Defined.

(** ** [save_to_csv], [save_to_json] and [main] *)

Lemma dict_to_list_row (fieldnames : gset string) (rowdict row : gmap string string) :
  dict_to_list fieldnames rowdict = Some row ->
  dom row = fieldnames /\
  forall k, k ∈ fieldnames -> row !! k = Some (default "" (rowdict !! k)).
Proof.
  unfold dict_to_list. case_bool_decide as Hsub; [| done].
  intros Heq. injection Heq as <-.
  split.
  - rewrite dom_union_L, dom_gset_to_gmap. by apply subseteq_union_1_L.
  - intros k Hk. rewrite lookup_union.
    rewrite (proj2 (lookup_gset_to_gmap_Some "" fieldnames k "")) by done.
    by destruct (rowdict !! k).
Qed.

Lemma dict_to_list_full (rowdict : gmap string string) :
  dict_to_list (dom rowdict) rowdict = Some rowdict.
Proof.
  unfold dict_to_list. rewrite bool_decide_eq_true_2 by done. f_equal.
  apply map_eq. intros k. rewrite lookup_union.
  destruct (rowdict !! k) as [v |] eqn:Hk.
  - by destruct (gset_to_gmap "" (dom rowdict) !! k).
  - rewrite (proj2 (lookup_gset_to_gmap_None "" (dom rowdict) k)); [done |].
    by apply not_elem_of_dom.
Qed.

(** The rows written are the records before the first one with a key
    outside the field names, each with a cell for every field name; the
    writer raises exactly when there is such a record. *)
Lemma writerows_spec (fieldnames : gset string) rowdicts :
  exists rows raised,
    writerows fieldnames rowdicts = (rows, raised) /\
    Forall (fun rowdict => dom rowdict ⊆ fieldnames)
           (take (length rows) rowdicts) /\
    Forall2 (fun row rowdict =>
               dom row = fieldnames /\
               forall k, k ∈ fieldnames ->
                         row !! k = Some (default "" (rowdict !! k)))
            rows (take (length rows) rowdicts) /\
    (raised = false -> length rows = length rowdicts) /\
    (raised = true ->
     exists bad, rowdicts !! length rows = Some bad /\
                 ~ dom bad ⊆ fieldnames).
Proof.
  induction rowdicts as [| rowdict rest IH].
  - exists [], false. cbn. split; [done |].
    split; [constructor |]. split; [constructor |]. by split.
  - cbn [writerows].
    destruct (dict_to_list fieldnames rowdict) as [row |] eqn:Hrow.
    + destruct IH as (rows & raised & -> & Hsub & Hrows & Hlen & Hbad).
      exists (row :: rows), raised. split; [done |].
      assert (Hrowdict : dom rowdict ⊆ fieldnames).
      { unfold dict_to_list in Hrow. by case_bool_decide. }
      cbn [length take]. split; [by constructor |].
      split; [constructor; [by apply dict_to_list_row | done] |].
      split; [intros Hr; by rewrite Hlen |]. exact Hbad.
    + exists [], true. split; [done |].
      assert (Hrowdict : ~ dom rowdict ⊆ fieldnames).
      { unfold dict_to_list in Hrow. by case_bool_decide. }
      cbn [length take]. split; [constructor |]. split; [constructor |].
      split; [done |]. intros _. by exists rowdict.
Qed.

(** X15. [save_to_csv] takes the columns from the first record alone.
    It writes nothing for an empty list. Otherwise it writes a file whose
    rows are the records before the first record that has a key the
    first one lacks, all of them when there is no such record; the first
    row is the first record, and each row has the value of each column,
    or the empty string where its record lacks the key. It raises exactly
    when there is such a record, which is then the one after the last
    record written. *)
Theorem save_to_csv_first_record_decides first rest filename :
  save_to_csv [] filename = ([], false) /\
  exists rows raised,
    save_to_csv (first :: rest) filename =
      ([CsvFile filename (dom first) rows], raised) /\
    head rows = Some first /\
    Forall (fun rowdict => dom rowdict ⊆ dom first)
           (take (length rows) (first :: rest)) /\
    Forall2 (fun row rowdict =>
               dom row = dom first /\
               forall k, k ∈ dom first ->
                         row !! k = Some (default "" (rowdict !! k)))
            rows (take (length rows) (first :: rest)) /\
    (raised = false <->
     Forall (fun rowdict => dom rowdict ⊆ dom first) rest) /\
    (raised = false -> length rows = S (length rest)) /\
    (raised = true ->
     exists bad, (first :: rest) !! length rows = Some bad /\
                 ~ dom bad ⊆ dom first).
Proof.
  split; [reflexivity |].
  unfold save_to_csv.
  destruct (writerows_spec (dom first) (first :: rest))
    as (rows & raised & Heq & Hsub & Hrows & Hlen & Hbad).
  exists rows, raised. rewrite Heq. split; [done |].
  split.
  { cbn [writerows] in Heq. rewrite dict_to_list_full in Heq.
    destruct (writerows (dom first) rest). by injection Heq as <- _. }
  split; [done |]. split; [done |]. split; [| by split].
  split.
  - intros Hr. specialize (Hlen Hr). rewrite Hlen in Hsub.
    change (S (length rest)) with (length (first :: rest)) in Hsub.
    rewrite firstn_all in Hsub. by apply Forall_cons in Hsub as [_ Hrest].
  - intros Hrest. destruct raised; [| done].
    destruct (Hbad eq_refl) as (bad & Hat & Hnot). exfalso. apply Hnot.
    apply list_elem_of_lookup_2 in Hat.
    apply elem_of_cons in Hat as [-> | Hin]; [done |].
    rewrite Forall_forall in Hrest. by apply Hrest.
Qed.

(** Of three records of which the second has a key of its own, only the
    first is written before the writer raises. *)
Example save_to_csv_partial :
  let first : gmap string string := {[ "title" := "a" ]} in
  let bad : gmap string string := {[ "title" := "b"; "seller" := "x" ]} in
  save_to_csv [first; bad; first] "out.csv" =
  ([CsvFile "out.csv" {[ "title" ]} [first]], true).
Proof. vm_compute. reflexivity. Qed.



(** With the choice [both] in the sample world, the run of two pages
    leaves two files. *)
Example main_both_first_page_only :
  length (fst (fst (main first_page_only Both 2 "20240101_120000" initial)))
  = 2%nat.
Proof. vm_compute. reflexivity. Qed.
